(** * usocks tunnel server: the multiplexing orchestrator of [server.py]

    A shallow embedding of [TunnelServer] (registry of record layers and
    frontends, pending-write set, packet dispatch, event loop) and the
    properties of its connection life cycle. *)

From Stdlib Require Import ZArith String.
From stdpp Require Import base option list gmap sets.

Local Open Scope Z_scope.

(** ** Data *)

Abbreviation bytes := (list Byte.byte) (only parsing).

(** Python objects are compared by identity ([util.ObjectSet] and
    [util.ObjectDict] key on it): an object is modelled by the handle it got
    when it was created. *)
Abbreviation record_layer := nat (only parsing).
Abbreviation front := nat (only parsing).

(** What [select] hands back and [self.unfinished] stores: a
    [record.RecordLayer] ([inl]) or a frontend connection ([inr]);
    [isinstance(conn, record.RecordLayer)] is the test on the tag. *)
Abbreviation connection := (record_layer + front)%type (only parsing).

Inductive level := DEBUG | INFO | WARNING | ERROR | CRITICAL.

(** The text handed to [logging.log]. [MsgExn p e] is [p + str(e)] for an
    exception caught by [run]; [Traceback] is the joined
    [traceback.format_stack()]. *)
Inductive exn :=
  | KeyError
  | SelectError (errno : Z)
  | UnicodeDecodeError.

Inductive message :=
  | Msg (s : string)
  | MsgExn (s : string) (e : exn)
  | Traceback.

(** Calls on the collaborators (record layer, backend, frontend) and on
    [logging], in program order. *)
Inductive event :=
  | FrontClose (f : front)                      (* front.close() *)
  | FrontReset (f : front)                      (* front.reset() *)
  | FrontSend (f : front) (data : bytes)        (* front.send(packet) *)
  | FrontContinue (f : front)                   (* front.send() *)
  | SendPacket (c : record_layer) (p : bytes)   (* conn.send_packet(p) *)
  | ContinueSending (c : record_layer)          (* conn.continue_sending() *)
  | RecordClose (c : record_layer)              (* conn.close() *)
  | BackendClose (c : record_layer)             (* conn.backend.close() *)
  | ServerBackendClose                          (* self.backend.close() *)
  | Log (lvl : level) (msg : message) (layer : string)
        (client : option record_layer).

(** Modelled from the spec: [util.ObjectSet] and [util.ObjectDict] are not
    part of the sources at hand. The pending-write set is a finite set of
    connections with [add], [remove] and iteration; the registry is made of
    two finite maps whose lookup and deletion fail with a lookup error on an
    absent key, as Python's [dict] and [set] do. *)
Record server := Server {
  unfinished : gset connection;
  record_layers : gmap record_layer (gmap Z front);
  frontends : gmap front (Z * record_layer);
  (* number of objects created so far: the next object's handle *)
  allocated : nat
}.

Definition set_unfinished (u : gset connection) (s : server) : server :=
  Server u (record_layers s) (frontends s) (allocated s).
Definition set_record_layers (r : gmap record_layer (gmap Z front))
    (s : server) : server :=
  Server (unfinished s) r (frontends s) (allocated s).
Definition set_frontends (fr : gmap front (Z * record_layer))
    (s : server) : server :=
  Server (unfinished s) (record_layers s) fr (allocated s).
Definition set_allocated (n : nat) (s : server) : server :=
  Server (unfinished s) (record_layers s) (frontends s) n.

(** [TunnelServer.__init__] *)
Definition init : server := Server ∅ ∅ ∅ 0%nat.

(** ** Computations: state, exceptions and the trace of calls *)

Inductive result (A : Type) :=
  | Return (a : A)
  | Raise (e : exn).
Arguments Return {A} a.
Arguments Raise {A} e.

Definition M (A : Type) : Type := server → result A * server * list event.

Definition ret {A} (a : A) : M A := λ s, (Return a, s, []).
Definition raise {A} (e : exn) : M A := λ s, (Raise e, s, []).
Definition bind {A B} (m : M A) (k : A → M B) : M B := λ s,
  match m s with
  | (Return a, s1, t1) =>
      match k a s1 with (r, s2, t2) => (r, s2, t1 ++ t2) end
  | (Raise e, s1, t1) => (Raise e, s1, t1)
  end.
Definition get : M server := λ s, (Return s, s, []).
Definition modify (g : server → server) : M unit := λ s, (Return tt, g s, []).
Definition emit (e : event) : M unit := λ s, (Return tt, s, [e]).

(** [try: m except Exception as e: h e] *)
Definition try_except {A} (m : M A) (h : exn → M A) : M A := λ s,
  match m s with
  | (Return a, s1, t1) => (Return a, s1, t1)
  | (Raise e, s1, t1) =>
      match h e s1 with (r, s2, t2) => (r, s2, t1 ++ t2) end
  end.

Declare Scope server_scope.
Delimit Scope server_scope with server.
Notation "x <- m ;; k" := (bind m (λ x, k))
  (at level 100, m at next level, right associativity) : server_scope.
Notation "m ;; k" := (bind m (λ _, k))
  (at level 100, right associativity) : server_scope.
Local Open Scope server_scope.

Definition outcome {A} (r : result A * server * list event) : result A :=
  r.1.1.
Definition final {A} (r : result A * server * list event) : server := r.1.2.
Definition trace {A} (r : result A * server * list event) : list event := r.2.

(** [d[k]]: a lookup error on an absent key. *)
Definition getitem {A} (o : option A) : M A :=
  match o with
  | Some a => ret a
  | None => raise KeyError
  end.

(** [for x in l: body x] *)
Fixpoint for_each {A} (l : list A) (body : A → M unit) : M unit :=
  match l with
  | [] => ret tt
  | x :: l' => body x ;; for_each l' body
  end.

Definition log (lvl : level) (msg : message) (layer : string)
    (client : option record_layer) : M unit :=
  emit (Log lvl msg layer client).

(** ** The server *)

(** What the collaborators answer. Each handler takes the answers of the
    calls it makes as arguments. *)

(** [self.new_frontend()]: a new frontend, or [FrontendUnavailableError]
    with its [message]. *)
Inductive factory_result :=
  | Available
  | FrontendUnavailableError (message : string).

(** The answers one [_process_packet] may need. *)
Record packet_answers := PacketAnswers {
  new_frontend : factory_result;   (* self.new_frontend() *)
  front_sent : bool;               (* conns[conn_id].send(packet) *)
  packet_sent : bool               (* conn.send_packet(header + data) *)
}.

(** [record.CriticalException] and its subclasses. *)
Inductive critical :=
  | HashfailError
  | InvalidHeaderError
  | RemoteResetException
  | InsecureClosingError
  | CriticalException.

(** [conn.receive_packets()] *)
Inductive received :=
  | ReceiveRaises (e : critical)
  | ReceiveNone
  | ReceivePackets (packets : list (bytes * packet_answers)).

(** [front.recv()]: an exception [e] with what [str(e)] gives, [None], or
    bytes. *)
Inductive recv_result :=
  | RecvRaises (str : string)
  | RecvNone
  | RecvBytes (data : bytes).

(** One element of the readable list of [select]. *)
Inductive readable :=
  | ReadBackend
  | ReadRecordLayer (conn : record_layer) (r : received)
  | ReadFrontend (f : front) (r : recv_result) (sent : bool).

(** [select.select(rlist, wlist, [])]: a [select.error] with its [e[0]], or
    the readable and writable lists; a writable connection comes with the
    answer of its retry. *)
Inductive selected :=
  | SelectRaises (errno : Z)
  | Selected (r : list readable) (w : list (connection * bool)).

(** [errno.EINTR] *)
Definition EINTR : Z := 4.


(** The bytes of a [str] are all below 128: in [server.py], where
    [unicode_literals] makes every literal a [unicode], this is when
    [literal + s] does not raise [UnicodeDecodeError]. *)
Definition is_ascii (s : string) : bool :=
  forallb (λ c, (Ascii.nat_of_ascii c <? 128)%nat)
          (String.list_ascii_of_string s).

(** Modelled from the spec: the [tunnel] module ([StatusControl],
    [unpack_packet], [pack_header]) is not among the sources. The control
    flags are integers tested with [&]; the codec goes between a packet and
    its control flags, connection id and payload. *)
Record tunnel := Tunnel {
  syn : Z;
  dat : Z;
  fin : Z;
  rst : Z;
  unpack_packet : bytes → Z * Z * bytes;
  pack_header : Z → Z → bytes
}.

Section TunnelServer.

Variable T : tunnel.

(** Truth of [control & flag]. *)
Definition has_flag (control flag : Z) : bool :=
  negb (Z.land control flag =? 0).

(** [conns[conn_id]] where [conns = self.record_layers[conn]]. [conns] is
    the very dictionary stored in the registry, so changes made through
    [self.record_layers[conn]] show in it: it is read through the registry. *)
Definition conns_getitem (conn : record_layer) (conn_id : Z) : M front :=
  s <- get ;;
  conns <- getitem (record_layers s !! conn) ;;
  getitem (conns !! conn_id).

(** [_close_frontend] (lines 144-151): the call on the frontend comes
    first, then the two lookups and the two [del], each of which raises on
    an absent key. *)
Definition _close_frontend (f : front) (reset : bool) : M unit :=
  (if reset then emit (FrontReset f) else emit (FrontClose f)) ;;
  s <- get ;;
  ci <- getitem (frontends s !! f) ;;
  let '(conn_id, conn) := ci in
  modify (λ s, set_frontends (delete f (frontends s)) s) ;;
  s <- get ;;
  conns <- getitem (record_layers s !! conn) ;;
  getitem (conns !! conn_id) ;;
  modify (set_record_layers (<[conn := delete conn_id conns]> (record_layers s))).

(** [_clean_record_layer] (lines 139-142). In Python 2 [values()] is a new
    list, made before the loop; its order is the one of the dictionary, here
    the one of [map_to_list]. *)
Definition _clean_record_layer (conn : record_layer) : M unit :=
  s <- get ;;
  conns <- getitem (record_layers s !! conn) ;;
  for_each (map_to_list conns).*2 (λ f, _close_frontend f false) ;;
  s <- get ;;
  getitem (record_layers s !! conn) ;;
  modify (set_record_layers (delete conn (record_layers s))).

(** [self.unfinished.add(c)] *)
Definition unfinished_add (c : connection) : M unit :=
  modify (λ s, set_unfinished ({[c]} ∪ unfinished s) s).

(** [self.unfinished.remove(c)]: a lookup error when [c] is not in the set,
    as for [set.remove]. *)
Definition unfinished_remove (c : connection) : M unit :=
  s <- get ;;
  if decide (c ∈ unfinished s)
  then modify (set_unfinished (unfinished s ∖ {[c]}))
  else raise KeyError.

(** [_send_packet] (lines 180-183); [sent] is what [conn.send_packet]
    answers. *)
Definition _send_packet (conn : record_layer) (conn_id control : Z)
    (data : bytes) (sent : bool) : M unit :=
  let header := pack_header T control conn_id in
  emit (SendPacket conn (header ++ data)) ;;
  if sent then ret tt else unfinished_add (inl conn).

(** The part of [_process_packet] under [if control & StatusControl.syn]
    (lines 161-171); [false] stands for its [return]. A new frontend is a
    new object: its handle is the next one. *)
Definition process_syn (conn : record_layer) (conn_id : Z)
    (a : packet_answers) : M bool :=
  s <- get ;;
  conns <- getitem (record_layers s !! conn) ;;
  (if decide (is_Some (conns !! conn_id))
   then f <- conns_getitem conn conn_id ;; _close_frontend f false
   else ret tt) ;;
  match new_frontend a with
  | FrontendUnavailableError m =>
      log ERROR (Msg m) "frontend" (Some conn) ;;
      _send_packet conn conn_id (rst T) [] (packet_sent a) ;;
      ret false
  | Available =>
      s <- get ;;
      let f := allocated s in
      modify (set_allocated (S f)) ;;
      s <- get ;;
      conns <- getitem (record_layers s !! conn) ;;
      modify (set_record_layers
                (<[conn := <[conn_id := f]> conns]> (record_layers s))) ;;
      modify (λ s, set_frontends (<[f := (conn_id, conn)]> (frontends s)) s) ;;
      ret true
  end.

(** [_process_packet] (lines 153-178) *)
Definition _process_packet (conn : record_layer) (packet : bytes)
    (a : packet_answers) : M unit :=
  let '(control, conn_id, packet) := unpack_packet T packet in
  s <- get ;;
  getitem (record_layers s !! conn) ;;
  if has_flag control (rst T) then
    f <- conns_getitem conn conn_id ;;
    _close_frontend f true
  else
    go_on <- (if has_flag control (syn T)
              then process_syn conn conn_id a else ret true) ;;
    if go_on : bool then
      (if has_flag control (dat T) then
         f <- conns_getitem conn conn_id ;;
         emit (FrontSend f packet) ;;
         if front_sent a then ret tt
         else f <- conns_getitem conn conn_id ;; unfinished_add (inr f)
       else ret tt) ;;
      (if has_flag control (fin T) then
         f <- conns_getitem conn conn_id ;;
         _close_frontend f false
       else ret tt)
    else ret tt.

(** The message [_process_record_layer] picks for a critical exception. *)
Definition critical_message (e : critical) : string :=
  match e with
  | HashfailError => "detect a wrong hash"
  | InvalidHeaderError => "detect an invalid header"
  | RemoteResetException => "remote host reset the connection"
  | InsecureClosingError => "detect an insecure closing"
  | CriticalException => "detect a critical exception"
  end.

(** [_process_record_layer] (lines 108-137); [r] is what
    [conn.receive_packets()] does. *)
Definition _process_record_layer (conn : record_layer) (r : received)
    : M unit :=
  match r with
  | ReceiveRaises e =>
      _clean_record_layer conn ;;
      emit (BackendClose conn) ;;
      log WARNING (Msg (critical_message e)) "record" (Some conn)
  | ReceiveNone =>
      _clean_record_layer conn ;;
      emit (RecordClose conn) ;;
      emit (BackendClose conn) ;;
      log INFO (Msg "disconnected") "record" (Some conn)
  | ReceivePackets packets =>
      for_each packets (λ p, _process_packet conn p.1 p.2)
  end.

(** [_process_backend] (lines 101-106): the new [record.RecordLayer] is a
    new object. *)
Definition _process_backend : M unit :=
  s <- get ;;
  let record_layer := allocated s in
  modify (set_allocated (S record_layer)) ;;
  modify (λ s, set_record_layers (<[record_layer := ∅]> (record_layers s)) s) ;;
  log INFO (Msg "connected") "record" (Some record_layer).

(** The two tests on [data] after [front.recv()] in [_process_frontend]:
    [if data:] and [elif data is None:]. *)
Definition recv_control (control : Z) (data : option bytes) : Z * bytes :=
  match data with
  | Some (b :: d) => (dat T, b :: d)
  | Some [] => (control, [])
  | None => (fin T, [])
  end.

(** [_process_frontend] (lines 185-206); [r] is what [front.recv()] does
    and [sent] what [conn.send_packet] answers. *)
Definition _process_frontend (f : front) (r : recv_result) (sent : bool)
    : M unit :=
  cd <- match r with
        | RecvBytes data => ret (0, Some data)
        | RecvNone => ret (0, None)
        | RecvRaises str =>
            s <- get ;;
            ci <- getitem (frontends s !! f) ;;
            (* msg = "unknown error: " + str(e) *)
            (if is_ascii str then ret tt else raise UnicodeDecodeError) ;;
            log ERROR (Msg ("unknown error: " ++ str)) "frontend"
                (Some ci.2) ;;
            ret (rst T, Some [])
        end ;;
  let '(control, data) := recv_control cd.1 cd.2 in
  if negb (control =? 0) then
    s <- get ;;
    ci <- getitem (frontends s !! f) ;;
    let '(conn_id, conn) := ci in
    _send_packet conn conn_id control data sent ;;
    if has_flag control (rst T) then _close_frontend f true
    else if has_flag control (fin T) then _close_frontend f false
    else ret tt
  else ret tt.

(** [_process_sending] (lines 208-214) *)
Definition _process_sending (conn : connection) (is_finished : bool)
    : M unit :=
  match conn with
  | inl c => emit (ContinueSending c)
  | inr f => emit (FrontContinue f)
  end ;;
  if is_finished then unfinished_remove conn else ret tt.

(** The body of [for conn in r] in [_process]. *)
Definition process_readable (x : readable) : M unit :=
  match x with
  | ReadBackend => _process_backend
  | ReadRecordLayer conn r => _process_record_layer conn r
  | ReadFrontend f r sent => _process_frontend f r sent
  end.

(** [_process] (lines 78-99) *)
Definition _process (sel : selected) : M unit :=
  match sel with
  | SelectRaises errno =>
      if errno =? EINTR then ret tt else raise (SelectError errno)
  | Selected r w =>
      for_each r process_readable ;;
      for_each w (λ c, _process_sending c.1 c.2)
  end.

(** [wlist = list(self.unfinished)] *)
Definition wlist (s : server) : list connection := elements (unfinished s).

(** One turn of the loop of [run]. *)
Definition run_iteration (sel : selected) : M unit :=
  try_except (_process sel)
    (λ e, log ERROR (MsgExn "unknown exception occurred: " e) "tunnel" None ;;
          log DEBUG Traceback "tunnel" None).

(** What [run] does once [self.running] is false. *)
Definition shutdown : M unit :=
  s <- get ;;
  for_each (map_to_list (record_layers s)).*1
    (λ conn, _clean_record_layer conn ;;
             emit (RecordClose conn) ;;
             emit (BackendClose conn)) ;;
  emit ServerBackendClose.

(** [run], with the answers of [select] for each turn taken before the stop
    signal. *)
Fixpoint run_loop (turns : list selected) : M unit :=
  match turns with
  | [] => ret tt
  | sel :: turns' => run_iteration sel ;; run_loop turns'
  end.

Definition run (turns : list selected) : M unit :=
  run_loop turns ;; shutdown.

End TunnelServer.

(** ** A tunnel module for the examples

    One byte of control flags with [syn = 1], [dat = 2], [fin = 4] and
    [rst = 8], then the connection id on two bytes, then the payload. *)

Definition byte_of_Z (z : Z) : Byte.byte :=
  default Byte.x00 (Byte.of_N (Z.to_N (z mod 256))).
Definition Z_of_byte (b : Byte.byte) : Z := Z.of_N (Byte.to_N b).

Definition example_unpack (packet : bytes) : Z * Z * bytes :=
  match packet with
  | c :: hi :: lo :: payload =>
      (Z_of_byte c, 256 * Z_of_byte hi + Z_of_byte lo, payload)
  | _ => (0, 0, [])
  end.
Definition example_pack (control conn_id : Z) : bytes :=
  [byte_of_Z control; byte_of_Z (conn_id / 256); byte_of_Z conn_id].

Definition example_tunnel : tunnel :=
  Tunnel 1 2 4 8 example_unpack example_pack.

(** [example_packet control conn_id payload]: the packet as the peer sends
    it. *)
Definition example_packet (control conn_id : Z) (payload : bytes) : bytes :=
  example_pack control conn_id ++ payload.

Definition answers_ok : packet_answers := PacketAnswers Available true true.

(** ** States and the registry invariant *)

(** [t] happened before what [r] records. *)
Definition prepend {A} (t : list event) (r : result A * server * list event)
    : result A * server * list event :=
  (r.1.1, r.1.2, t ++ r.2).

(** The registry after [front] left it: what the two [del] of
    [_close_frontend] leave. *)
Definition closed (f : front) (conn_id : Z) (conn : record_layer)
    (conns : gmap Z front) (s : server) : server :=
  Server (unfinished s)
         (<[conn := delete conn_id conns]> (record_layers s))
         (delete f (frontends s))
         (allocated s).

(** The registry after a new frontend took [conn_id] under [conn]. *)
Definition opened (conn_id : Z) (conn : record_layer) (conns : gmap Z front)
    (s : server) : server :=
  Server (unfinished s)
         (<[conn := <[conn_id := allocated s]> conns]> (record_layers s))
         (<[allocated s := (conn_id, conn)]> (frontends s))
         (S (allocated s)).

(** [c] was added to the pending-write set unless its send completed. *)
Definition pending (sent : bool) (c : connection) (s : server) : server :=
  if sent then s else set_unfinished ({[c]} ∪ unfinished s) s.

(** The registry after [_process_backend] registered a new record layer. *)
Definition accepted (s : server) : server :=
  Server (unfinished s)
         (<[allocated s := ∅]> (record_layers s))
         (frontends s)
         (S (allocated s)).

(** The registry after [_clean_record_layer conn]. *)
Definition torn_down (conn : record_layer) (s : server) : server :=
  Server (unfinished s)
         (delete conn (record_layers s))
         (filter (λ kv, kv.2.2 ≠ conn) (frontends s))
         (allocated s).

(** What SYN does for an Unopened id. *)
Definition syn_unopened (T : tunnel) (conn : record_layer) (conn_id : Z)
    (a : packet_answers) (conns : gmap Z front) (s : server)
    : result bool * server * list event :=
  match new_frontend a with
  | FrontendUnavailableError m =>
      (Return false, pending (packet_sent a) (inl conn) s,
       [Log ERROR (Msg m) "frontend" (Some conn);
        SendPacket conn (pack_header T (rst T) conn_id ++ [])])
  | Available => (Return true, opened conn_id conn conns s, [])
  end.

(** What [run] logs for an exception of [_process]. *)
Definition unknown_exception (e : exn) : list event :=
  [Log ERROR (MsgExn "unknown exception occurred: " e) "tunnel" None;
   Log DEBUG Traceback "tunnel" None].

(** The call that retries the pending write of [x] in [_process_sending]. *)
Definition retry (x : connection) : event :=
  match x with
  | inl c => ContinueSending c
  | inr f => FrontContinue f
  end.

(** The two mappings of the registry describe the same virtual connections,
    and every registered object has been created. *)
Record wf (s : server) : Prop := {
  wf_forward : ∀ c conns i f,
    record_layers s !! c = Some conns → conns !! i = Some f →
    frontends s !! f = Some (i, c);
  wf_backward : ∀ f i c,
    frontends s !! f = Some (i, c) →
    ∃ conns, record_layers s !! c = Some conns ∧ conns !! i = Some f;
  wf_record_layers_allocated : ∀ c,
    is_Some (record_layers s !! c) → (c < allocated s)%nat;
  wf_frontends_allocated : ∀ f,
    is_Some (frontends s !! f) → (f < allocated s)%nat
}.

(** At most one virtual connection under a (record layer, id) pair. *)
Definition at_most_one (s : server) : Prop :=
  ∀ f1 f2 i c,
    frontends s !! f1 = Some (i, c) → frontends s !! f2 = Some (i, c) →
    f1 = f2.

(** [conn_id] is Open under [conn], with frontend [f]. *)
Definition is_open (s : server) (conn : record_layer) (conn_id : Z)
    (f : front) : Prop :=
  ∃ conns, record_layers s !! conn = Some conns ∧ conns !! conn_id = Some f.

(** [conn] is registered and [conn_id] is Unopened under it. *)
Definition is_unopened (s : server) (conn : record_layer) (conn_id : Z)
    : Prop :=
  ∃ conns, record_layers s !! conn = Some conns ∧ conns !! conn_id = None.

(** The states of the server between two turns of its loop, whatever
    [select] and the collaborators answer. *)
Inductive reachable (T : tunnel) : server → Prop :=
  | reachable_init : reachable T init
  | reachable_turn s sel :
      reachable T s → reachable T (final (run_iteration T sel s)).

(** [m] keeps [I], whether it returns or raises. *)
Definition preserves {A} (I : server → Prop) (m : M A) : Prop :=
  ∀ s, I s → I (final (m s)).

(** What [str(e)] gives for an error whose message is the one byte 0xE9. *)
Definition not_ascii_message : string :=
  String (Ascii.ascii_of_nat 233) EmptyString.

(** ** Example runs *)

Definition hi : bytes := [Byte.x68; Byte.x69].

(** One record layer (handle 0) accepted, then SYN+DAT for id 1: frontend 1
    is open under it. *)
Definition turn_open : selected :=
  Selected [ReadBackend;
            ReadRecordLayer 0%nat
              (ReceivePackets [(example_packet 3 1 hi, answers_ok)])] [].
Definition state_open : server :=
  final (run_iteration example_tunnel turn_open init).

(** The same with a second virtual connection, id 2 (frontend 2). *)
Definition turn_open2 : selected :=
  Selected [ReadRecordLayer 0%nat
              (ReceivePackets [(example_packet 1 2 [], answers_ok)])] [].
Definition state_open2 : server :=
  final (run_iteration example_tunnel turn_open2 state_open).

(** The same as [state_open], but the frontend did not take all of the
    payload, and a packet sent for it did not go out at once: both
    connections are in the pending-write set. *)
Definition turn_pending : selected :=
  Selected [ReadBackend;
            ReadRecordLayer 0%nat
              (ReceivePackets
                 [(example_packet 3 1 hi, PacketAnswers Available false true)]);
            ReadFrontend 1%nat (RecvBytes hi) false] [].
Definition state_pending : server :=
  final (run_iteration example_tunnel turn_pending init).

(** A second record layer (handle 2) accepted after [state_open], with a
    virtual connection of its own: id 1, frontend 3. *)
Definition turn_two : selected :=
  Selected [ReadBackend;
            ReadRecordLayer 2%nat
              (ReceivePackets [(example_packet 1 1 [], answers_ok)])] [].
Definition state_two : server :=
  final (run_iteration example_tunnel turn_two state_open).

(** ** Further notions *)

(** The record layers other than [conn] have in [s'] the virtual connections
    they have in [s]. *)
Definition same_elsewhere (conn : record_layer) (s s' : server) : Prop :=
  ∀ c, c ≠ conn → record_layers s' !! c = record_layers s !! c.

(** What the DAT part of [_process_packet] adds: the state and the calls
    when the flag is set, nothing otherwise. *)
Definition delivered (dat_set sent : bool) (f : front) (s : server) : server :=
  if dat_set then pending sent (inr f) s else s.
Definition delivery (dat_set : bool) (f : front) (payload : bytes)
    : list event :=
  if dat_set then [FrontSend f payload] else [].

(** ** [main]: the command line and the configuration file *)

(** How [main] ends before the server runs: [sys.exit(code)] (code 0 for
    [sys.exit()]), or the [assert False] on an option that is none of those
    known. *)
Inductive main_exit :=
  | Exit (code : Z)
  | AssertionError.

(** [config_file], [log_file] and [verbose] in [main]. *)
Record options := Options {
  config_file : option string;
  log_file : option string;
  verbose : bool
}.

(** [o in (short, long)] *)
Definition is_option (short long o : string) : bool :=
  String.eqb o short || String.eqb o long.

(** The body of [for o, a in opts] (lines 232-243). *)
Definition option_step (acc : options) (oa : string * string)
    : options + main_exit :=
  let '(o, a) := oa in
  if is_option "-v" "--verbose" o then
    inl (Options (config_file acc) (log_file acc) true)
  else if is_option "-h" "--help" o then inr (Exit 0)
  else if is_option "-c" "--config" o then
    inl (Options (Some a) (log_file acc) (verbose acc))
  else if is_option "-l" "--logfile" o then
    inl (Options (config_file acc) (Some a) (verbose acc))
  else inr AssertionError.

(** The loop over what [getopt.getopt] gave, from the values [acc] of the
    three variables. *)
Fixpoint main_options (opts : list (string * string)) (acc : options)
    : options + main_exit :=
  match opts with
  | [] => inl acc
  | oa :: opts' =>
      match option_step acc oa with
      | inl acc' => main_options opts' acc'
      | inr e => inr e
      end
  end.

(** The loop [for f in possible_files] with its [break]; [exists_] is
    [path.exists]. *)
Fixpoint first_existing (exists_ : string → bool)
    (possible_files : list string) : option string :=
  match possible_files with
  | [] => None
  | f :: files => if exists_ f then Some f else first_existing exists_ files
  end.

(** The configuration file [main] loads (lines 246-258). *)
Definition main_config_file (exists_ : string → bool)
    (possible_files : list string) (config_file : option string)
    : string + main_exit :=
  match config_file with
  | Some f => inl f
  | None =>
      match first_existing exists_ possible_files with
      | Some f => inl f
      | None => inr (Exit 2)
      end
  end.

(** An option other than help that the loop knows. *)
Definition plain_option (oa : string * string) : bool :=
  negb (is_option "-h" "--help" oa.1)
  && (is_option "-v" "--verbose" oa.1 || is_option "-c" "--config" oa.1
      || is_option "-l" "--logfile" oa.1).

(** An option the loop knows. *)
Definition known_option (oa : string * string) : bool :=
  is_option "-h" "--help" oa.1 || plain_option oa.

(** ** Pending writes *)

(** [conns[conn_id]] in the DAT part of [_process_packet], told from the
    state before the packet: the frontend the id has when the packet has no
    SYN, the frontend that the SYN part registers when it has one. *)
Definition dat_target (T : tunnel) (s : server) (conns : gmap Z front)
    (control conn_id : Z) (a : packet_answers) : option front :=
  if has_flag control (syn T) then
    match new_frontend a with
    | Available => Some (allocated s)
    | FrontendUnavailableError _ => None
    end
  else conns !! conn_id.

(** A send of connection [x] that did not complete, made in state [s] by a
    function that leaves the state [s']: [conn.send_packet] in
    [_send_packet], or the [send] of a frontend in the DAT part of
    [_process_packet] (with or without SYN in the same packet). *)
Inductive incomplete_send (T : tunnel) (s : server)
    : connection → server → Prop :=
  | incomplete_send_packet conn conn_id control data :
      incomplete_send T s (inl conn)
        (final (_send_packet T conn conn_id control data false s))
  | incomplete_front_send conn packet control conn_id payload a conns f :
      unpack_packet T packet = (control, conn_id, payload) →
      has_flag control (rst T) = false →
      has_flag control (dat T) = true →
      record_layers s !! conn = Some conns →
      dat_target T s conns control conn_id a = Some f →
      front_sent a = false →
      incomplete_send T s (inr f) (final (_process_packet T conn packet a s)).

(** What [select] may give as writable in state [s]: connections of
    [wlist], none twice. *)
Definition select_writable (s : server) (w : list (connection * bool))
    : Prop :=
  NoDup w.*1 ∧ ∀ x, x ∈ w.*1 → x ∈ wlist s.

(** The connections of [w] whose retry completes. *)
Definition finished (w : list (connection * bool)) : gset connection :=
  list_to_set (filter (λ c, c.2 = true) w).*1.

(** [e] is the retry of the pending write of [x]. *)
Definition is_retry (x : connection) (e : event) : bool :=
  match x, e with
  | inl c, ContinueSending c' => Nat.eqb c c'
  | inr f, FrontContinue f' => Nat.eqb f f'
  | _, _ => false
  end.

(** How many times the pending write of [x] is retried in a trace. *)
Definition retries (x : connection) (t : list event) : nat :=
  length (List.filter (is_retry x) t).

(** Every call [m] makes is one of [P]. *)
Definition calls_only {A} (P : event → Prop) (m : M A) : Prop :=
  ∀ s, Forall P (trace (m s)).

(** [e] is no retry of a pending write. *)
Definition no_retry (e : event) : Prop :=
  match e with
  | ContinueSending _ | FrontContinue _ => False
  | _ => True
  end.

(** * Properties *)

(** ** Running computations *)

Lemma prepend_nil {A} (r : result A * server * list event) :
  prepend [] r = r.
Proof. by destruct r as [[??]?]. Qed.

Lemma prepend_prepend {A} t1 t2 (r : result A * server * list event) :
  prepend t1 (prepend t2 r) = prepend (t1 ++ t2) r.
Proof. destruct r as [[??]?]. unfold prepend; simpl. by rewrite app_assoc. Qed.

Lemma prepend_triple {A} t (x : result A) s t' :
  prepend t (x, s, t') = (x, s, t ++ t').
Proof. done. Qed.

Lemma final_prepend {A} t (r : result A * server * list event) :
  final (prepend t r) = final r.
Proof. done. Qed.


Section Running.
Context {A B : Type}.
Implicit Types (m : M A) (k : A → M B) (s : server) (t : list event).

Lemma bind_returns m k s a s1 t1 :
  m s = (Return a, s1, t1) → bind m k s = prepend t1 (k a s1).
Proof. unfold bind. intros ->. by destruct (k a s1) as [[??]?]. Qed.

Lemma bind_raises m k s e s1 t1 :
  m s = (Raise e, s1, t1) → bind m k s = (Raise e, s1, t1).
Proof. unfold bind. by intros ->. Qed.

Lemma bind_ret a k s : bind (ret a) k s = k a s.
Proof. rewrite (bind_returns _ _ _ a s []) by done. apply prepend_nil. Qed.

Lemma bind_raise e k s : bind (raise e) k s = (Raise e, s, []).
Proof. done. Qed.

Lemma bind_getitem_Some a k s : bind (getitem (Some a)) k s = k a s.
Proof. apply bind_ret. Qed.

Lemma bind_getitem_None k s :
  bind (getitem (@None A)) k s = (Raise KeyError, s, []).
Proof. done. Qed.

End Running.

Section RunningState.
Context {B : Type}.
Implicit Types (s : server).

Lemma bind_get (k : server → M B) s : bind get k s = k s s.
Proof. rewrite (bind_returns _ _ _ s s []) by done. apply prepend_nil. Qed.

Lemma bind_modify g (k : unit → M B) s : bind (modify g) k s = k tt (g s).
Proof. rewrite (bind_returns _ _ _ tt (g s) []) by done. apply prepend_nil. Qed.

Lemma bind_emit e (k : unit → M B) s :
  bind (emit e) k s = prepend [e] (k tt s).
Proof. by rewrite (bind_returns _ _ _ tt s [e]). Qed.

Lemma bind_log lvl msg layer client (k : unit → M B) s :
  bind (log lvl msg layer client) k s
  = prepend [Log lvl msg layer client] (k tt s).
Proof. apply bind_emit. Qed.

End RunningState.

Lemma bind_assoc {A B C} (m : M A) (k : A → M B) (h : B → M C) s :
  bind (bind m k) h s = bind m (λ a, bind (k a) h) s.
Proof.
  unfold bind. destruct (m s) as [[[a|e] s1] t1]; [|done].
  destruct (k a s1) as [[[b|e] s2] t2]; [|done].
  destruct (h b s2) as [[r s3] t3]. by rewrite app_assoc.
Qed.

Lemma for_each_nil {A} (body : A → M unit) s :
  for_each [] body s = (Return tt, s, []).
Proof. done. Qed.

Lemma for_each_cons {A} (x : A) l (body : A → M unit) s :
  for_each (x :: l) body s = bind (body x) (λ _, for_each l body) s.
Proof. done. Qed.

Lemma for_each_app {A} (l1 l2 : list A) (body : A → M unit) s :
  for_each (l1 ++ l2) body s
  = bind (for_each l1 body) (λ _, for_each l2 body) s.
Proof.
  revert s. induction l1 as [|x l1 IH]; intros s; simpl.
  - by rewrite bind_ret.
  - rewrite bind_assoc.
    destruct (body x s) as [[[[]|e] s1] t1] eqn:Hx.
    + rewrite !(bind_returns _ _ _ _ _ _ Hx). by rewrite IH.
    + by rewrite !(bind_raises _ _ _ _ _ _ Hx).
Qed.

Create Rewrite HintDb run.
#[local] Hint Rewrite @bind_ret @bind_raise @bind_getitem_Some
  @bind_getitem_None @bind_get @bind_modify @bind_emit @bind_log
  @prepend_triple @prepend_prepend : run.

(** Runs the next steps of a computation, reading the registry from the
    hypotheses. *)
Ltac run_step :=
  match goal with
  | H : ?x = _ |- context [getitem ?x] => rewrite H
  | H : ?x = _ |- context [decide (is_Some ?x)] => rewrite H
  | H : ?x = _ |- context [if ?x then _ else _] => rewrite H
  | |- context [getitem (Some _) _] => change (getitem (Some ?a)) with (ret a)
  | |- _ => progress autorewrite with run
  | |- _ => progress cbv beta
  end.
Ltac run := repeat run_step.

(** ** [_close_frontend] *)

Lemma close_frontend_event_eq (f : front) (reset : bool) (k : unit → M unit) s :
  bind (if reset then emit (FrontReset f) else emit (FrontClose f)) k s
  = prepend [if reset then FrontReset f else FrontClose f] (k tt s).
Proof. destruct reset; apply bind_emit. Qed.

Lemma close_frontend_unregistered s f reset :
  frontends s !! f = None →
  _close_frontend f reset s
  = (Raise KeyError, s, [if reset then FrontReset f else FrontClose f]).
Proof.
  intros Hf. unfold _close_frontend.
  rewrite close_frontend_event_eq. by run.
Qed.

Lemma close_frontend_registered s f reset i c conns :
  frontends s !! f = Some (i, c) →
  record_layers s !! c = Some conns →
  is_Some (conns !! i) →
  _close_frontend f reset s
  = (Return tt, closed f i c conns s,
     [if reset then FrontReset f else FrontClose f]).
Proof.
  intros Hf Hc [f' Hi]. unfold _close_frontend.
  rewrite close_frontend_event_eq. run. simpl. run.
  done.
Qed.

(** ** The registry invariant under the elementary changes *)

Lemma wf_same_registry s s' :
  record_layers s' = record_layers s → frontends s' = frontends s →
  allocated s' = allocated s → wf s → wf s'.
Proof.
  intros Hr Hf Ha [H1 H2 H3 H4].
  split; rewrite ?Hr, ?Hf, ?Ha; assumption.
Qed.

Lemma wf_pending sent c s : wf s → wf (pending sent c s).
Proof. destruct sent; [done|]. by apply wf_same_registry. Qed.

Lemma wf_init : wf init.
Proof.
  split; simpl;
    [intros c conns i f H | intros f i c H | intros c [x H] | intros f [x H]];
    by rewrite lookup_empty in H.
Qed.

Lemma wf_closed s f i c conns :
  wf s → frontends s !! f = Some (i, c) →
  record_layers s !! c = Some conns → wf (closed f i c conns s).
Proof.
  intros [H1 H2 H3 H4] Hf Hc.
  assert (conns !! i = Some f) as Hi.
  { destruct (H2 _ _ _ Hf) as (m & Hm & ?). congruence. }
  split; simpl.
  - intros c' conns' i' f' Hc' Hi'.
    destruct (decide (c' = c)) as [->|Hne].
    + rewrite lookup_insert_eq in Hc'. injection Hc' as <-.
      apply lookup_delete_Some in Hi' as [Hii Hi'].
      pose proof (H1 _ _ _ _ Hc Hi') as Hf'.
      rewrite lookup_delete_ne; [done|]. intros <-. congruence.
    + rewrite lookup_insert_ne in Hc' by done.
      pose proof (H1 _ _ _ _ Hc' Hi') as Hf'.
      rewrite lookup_delete_ne; [done|]. intros <-. congruence.
  - intros f' i' c' Hf'.
    apply lookup_delete_Some in Hf' as [Hff Hf'].
    destruct (H2 _ _ _ Hf') as (m & Hm & Hmi).
    destruct (decide (c' = c)) as [->|Hne].
    + exists (delete i conns). rewrite lookup_insert_eq. split; [done|].
      assert (m = conns) as -> by congruence.
      rewrite lookup_delete_ne; [done|]. intros <-. congruence.
    + exists m. by rewrite lookup_insert_ne.
  - intros c' Hc'. apply H3.
    destruct (decide (c' = c)) as [->|Hne]; [by eexists|].
    by rewrite lookup_insert_ne in Hc'.
  - intros f' [x Hf']. apply H4.
    apply lookup_delete_Some in Hf' as [_ Hf']. by rewrite Hf'.
Qed.

Lemma wf_opened s i c conns :
  wf s → record_layers s !! c = Some conns → conns !! i = None →
  wf (opened i c conns s).
Proof.
  intros [H1 H2 H3 H4] Hc Hi.
  assert (frontends s !! allocated s = None) as Hfresh.
  { destruct (frontends s !! allocated s) eqn:E; [|done].
    pose proof (H4 (allocated s) (mk_is_Some _ _ E)). lia. }
  split; simpl.
  - intros c' conns' i' f' Hc' Hi'.
    assert (frontends s !! f' = Some (i', c') → f' ≠ allocated s) as Hold.
    { intros E ->. congruence. }
    destruct (decide (c' = c)) as [->|Hne].
    + rewrite lookup_insert_eq in Hc'. injection Hc' as <-.
      destruct (decide (i' = i)) as [->|Hni].
      * rewrite lookup_insert_eq in Hi'. injection Hi' as <-.
        by rewrite lookup_insert_eq.
      * rewrite lookup_insert_ne in Hi' by done.
        pose proof (H1 _ _ _ _ Hc Hi') as Hf'.
        rewrite lookup_insert_ne; [done|]. intros E. by apply Hold.
    + rewrite lookup_insert_ne in Hc' by done.
      pose proof (H1 _ _ _ _ Hc' Hi') as Hf'.
      rewrite lookup_insert_ne; [done|]. intros E. by apply Hold.
  - intros f' i' c' Hf'.
    destruct (decide (f' = allocated s)) as [->|Hnf].
    + rewrite lookup_insert_eq in Hf'. injection Hf' as <- <-.
      exists (<[i := allocated s]> conns). by rewrite !lookup_insert_eq.
    + rewrite lookup_insert_ne in Hf' by done.
      destruct (H2 _ _ _ Hf') as (m & Hm & Hmi).
      destruct (decide (c' = c)) as [->|Hne].
      * exists (<[i := allocated s]> conns). rewrite lookup_insert_eq.
        split; [done|]. assert (m = conns) as -> by congruence.
        rewrite lookup_insert_ne; [done|]. intros <-. congruence.
      * exists m. by rewrite lookup_insert_ne.
  - intros c' Hc'. apply Nat.lt_lt_succ_r, H3.
    destruct (decide (c' = c)) as [->|Hne]; [by eexists|].
    by rewrite lookup_insert_ne in Hc'.
  - intros f' Hf'.
    destruct (decide (f' = allocated s)) as [->|Hnf]; [lia|].
    rewrite lookup_insert_ne in Hf' by done.
    by apply Nat.lt_lt_succ_r, H4.
Qed.

Lemma wf_at_most_one s : wf s → at_most_one s.
Proof.
  intros [_ H2 _ _] f1 f2 i c Hf1 Hf2.
  destruct (H2 _ _ _ Hf1) as (m1 & Hm1 & E1).
  destruct (H2 _ _ _ Hf2) as (m2 & Hm2 & E2).
  congruence.
Qed.

Lemma wf_open_owner s conn conn_id f :
  wf s → is_open s conn conn_id f → frontends s !! f = Some (conn_id, conn).
Proof. intros [H1 _ _ _] (conns & Hc & Hi). eauto. Qed.

(** ** Keeping an invariant *)

Section Preserves.
Context (I : server → Prop).

Lemma preserves_ret {A} (a : A) : preserves I (ret a).
Proof. by intros s. Qed.

Lemma preserves_raise {A} e : preserves I (@raise A e).
Proof. by intros s. Qed.

Lemma preserves_get : preserves I get.
Proof. by intros s. Qed.

Lemma preserves_emit e : preserves I (emit e).
Proof. by intros s. Qed.

Lemma preserves_log lvl msg layer client :
  preserves I (log lvl msg layer client).
Proof. by intros s. Qed.

Lemma preserves_getitem {A} (o : option A) : preserves I (getitem o).
Proof. by destruct o; intros s. Qed.

Lemma preserves_modify g : (∀ s, I s → I (g s)) → preserves I (modify g).
Proof. intros Hg s. apply Hg. Qed.

Lemma preserves_bind {A B} (m : M A) (k : A → M B) :
  preserves I m → (∀ a, preserves I (k a)) → preserves I (bind m k).
Proof.
  intros Hm Hk s Hs. specialize (Hm s Hs). unfold bind.
  destruct (m s) as [[[a|e] s1] t1]; [|done].
  specialize (Hk a s1 Hm). by destruct (k a s1) as [[r s2] t2].
Qed.

Lemma preserves_for_each {A} (l : list A) (body : A → M unit) :
  (∀ x, preserves I (body x)) → preserves I (for_each l body).
Proof.
  intros Hbody. induction l as [|x l IH]; simpl.
  - apply preserves_ret.
  - apply preserves_bind; [apply Hbody|]. by intros _.
Qed.

Lemma preserves_try_except {A} (m : M A) (h : exn → M A) :
  preserves I m → (∀ e, preserves I (h e)) → preserves I (try_except m h).
Proof.
  intros Hm Hh s Hs. specialize (Hm s Hs). unfold try_except.
  destruct (m s) as [[[a|e] s1] t1]; [done|].
  specialize (Hh e s1 Hm). by destruct (h e s1) as [[r s2] t2].
Qed.

End Preserves.

(** The pending-write set is no part of the registry invariant. *)
Lemma unfinished_add_preserves c : preserves wf (unfinished_add c).
Proof. intros s Hs. by apply (wf_same_registry s). Qed.

Lemma unfinished_remove_preserves c : preserves wf (unfinished_remove c).
Proof.
  intros s Hs. unfold unfinished_remove. rewrite bind_get.
  destruct (decide (c ∈ unfinished s)); [|done].
  by apply (wf_same_registry s).
Qed.

Lemma close_frontend_preserves f reset : preserves wf (_close_frontend f reset).
Proof.
  intros s Hs. destruct (frontends s !! f) as [[i c]|] eqn:Hf.
  - destruct (wf_backward s Hs _ _ _ Hf) as (conns & Hc & Hi).
    rewrite (close_frontend_registered s f reset i c conns) by eauto.
    by apply wf_closed.
  - by rewrite close_frontend_unregistered.
Qed.

Lemma conns_getitem_preserves I conn conn_id :
  preserves I (conns_getitem conn conn_id).
Proof.
  unfold conns_getitem. apply preserves_bind; [apply preserves_get|].
  intros s. apply preserves_bind; [apply preserves_getitem|].
  intros conns. apply preserves_getitem.
Qed.

Lemma conns_getitem_eq {B} conn conn_id (k : front → M B) s conns :
  record_layers s !! conn = Some conns →
  bind (conns_getitem conn conn_id) k s
  = match conns !! conn_id with
    | Some f => k f s
    | None => (Raise KeyError, s, [])
    end.
Proof.
  intros Hc. unfold conns_getitem. rewrite !bind_assoc, bind_get.
  rewrite bind_assoc, Hc, bind_getitem_Some.
  destruct (conns !! conn_id); [apply bind_getitem_Some|done].
Qed.

(** ** [_clean_record_layer] *)

(** The loop of [_clean_record_layer], over a part [l] of the items of
    [conns]. *)
Lemma close_all s conn (l : list (Z * front)) conns :
  NoDup l.*1 → wf s → record_layers s !! conn = Some conns →
  (∀ i f, (i, f) ∈ l → conns !! i = Some f) →
  ∃ s' conns',
    for_each l.*2 (λ f, _close_frontend f false) s
    = (Return tt, s', FrontClose <$> l.*2)
    ∧ wf s'
    ∧ record_layers s' = <[conn := conns']> (record_layers s)
    ∧ (∀ i, conns' !! i = if decide (i ∈ l.*1) then None else conns !! i)
    ∧ unfinished s' = unfinished s
    ∧ allocated s' = allocated s.
Proof.
  revert s conns. induction l as [|[i f] l IH]; intros s conns Hnd Hs Hc Hl.
  - exists s, conns. simpl. split_and!; try done.
    by rewrite insert_id.
  - apply NoDup_cons in Hnd as [Hi Hnd]. simpl in Hi.
    assert (conns !! i = Some f) as Hif by (apply Hl; left).
    pose proof (wf_forward s Hs _ _ _ _ Hc Hif) as Hf.
    destruct (IH (closed f i conn conns s) (delete i conns))
      as (s' & conns' & Hrun & Hs' & Hr & Hconns' & Hu & Ha).
    + done.
    + by apply wf_closed.
    + simpl. by rewrite lookup_insert_eq.
    + intros i' f' Hin. rewrite lookup_delete_ne.
      * apply Hl. by right.
      * intros <-. apply Hi. apply list_elem_of_fmap. by exists (i, f').
    + exists s', conns'. split_and!; try done.
      * rewrite !fmap_cons, for_each_cons.
        rewrite (bind_returns _ _ _ tt (closed f i conn conns s) [FrontClose f]).
        -- by rewrite Hrun.
        -- apply (close_frontend_registered s f false i conn conns); eauto.
      * rewrite Hr. simpl. by rewrite insert_insert_eq.
      * intros i'. rewrite Hconns', fmap_cons. cbn [fst].
        destruct (decide (i' = i)) as [->|Hne].
        -- rewrite (decide_True (P := i ∈ i :: l.*1)) by left.
           destruct (decide (i ∈ l.*1)); [done|]. by rewrite lookup_delete_eq.
        -- rewrite lookup_delete_ne by done.
           destruct (decide (i' ∈ l.*1)).
           ++ by rewrite decide_True by (by right).
           ++ rewrite decide_False; [done|].
              by intros [?|?]%elem_of_cons.
Qed.

Lemma wf_delete_empty s conn :
  wf s → record_layers s !! conn = Some ∅ →
  wf (set_record_layers (delete conn (record_layers s)) s).
Proof.
  intros [H1 H2 H3 H4] Hc. split; simpl.
  - intros c m i f Hm. apply lookup_delete_Some in Hm as [_ Hm]. eauto.
  - intros f i c Hf. destruct (H2 _ _ _ Hf) as (m & Hm & Hi).
    exists m. split; [|done]. rewrite lookup_delete_ne; [done|].
    intros <-. rewrite Hc in Hm. injection Hm as <-.
    by rewrite lookup_empty in Hi.
  - intros c [m Hm]. apply lookup_delete_Some in Hm as [_ Hm]. eauto.
  - done.
Qed.

(** Which frontends are left once [conn] and its dictionary are gone. *)
Lemma frontends_torn_down s s' conn :
  wf s → wf s' → record_layers s' = delete conn (record_layers s) →
  frontends s' = filter (λ kv, kv.2.2 ≠ conn) (frontends s).
Proof.
  intros Hs Hs' Hr. apply map_eq. intros f. apply option_eq. intros [i c].
  rewrite map_lookup_filter_Some. simpl. split.
  - intros Hf. destruct (wf_backward s' Hs' _ _ _ Hf) as (m & Hm & Hi).
    rewrite Hr in Hm. apply lookup_delete_Some in Hm as [Hne Hm].
    split; [|done]. by apply (wf_forward s Hs c m).
  - intros [Hf Hne]. destruct (wf_backward s Hs _ _ _ Hf) as (m & Hm & Hi).
    apply (wf_forward s' Hs' c m); [|done].
    rewrite Hr. by rewrite lookup_delete_ne.
Qed.

Lemma clean_record_layer_unregistered s conn :
  record_layers s !! conn = None →
  _clean_record_layer conn s = (Raise KeyError, s, []).
Proof. intros Hc. unfold _clean_record_layer. by run. Qed.

Lemma clean_record_layer_registered s conn conns :
  wf s → record_layers s !! conn = Some conns →
  _clean_record_layer conn s
  = (Return tt, torn_down conn s, FrontClose <$> (map_to_list conns).*2)
  ∧ wf (torn_down conn s).
Proof.
  intros Hs Hc.
  destruct (close_all s conn (map_to_list conns) conns)
    as (s' & conns' & Hrun & Hs' & Hr & Hconns' & Hu & Ha); try done.
  { apply NoDup_fst_map_to_list. }
  { intros i f. apply elem_of_map_to_list. }
  assert (conns' = ∅) as ->.
  { apply map_eq. intros i. rewrite Hconns', lookup_empty.
    destruct (decide _) as [|Hni]; [done|].
    destruct (conns !! i) as [f|] eqn:Hi; [|done].
    destruct Hni. apply list_elem_of_fmap. exists (i, f).
    split; [done|]. by apply elem_of_map_to_list. }
  assert (record_layers s' !! conn = Some ∅) as Hc'.
  { by rewrite Hr, lookup_insert_eq. }
  pose proof (wf_delete_empty s' conn Hs' Hc') as Hwf.
  assert (set_record_layers (delete conn (record_layers s')) s'
          = torn_down conn s) as Heq.
  { unfold set_record_layers, torn_down. f_equal; try done.
    - by rewrite Hr, delete_insert_eq.
    - apply (frontends_torn_down s
               (set_record_layers (delete conn (record_layers s')) s'));
        try done.
      simpl. by rewrite Hr, delete_insert_eq. }
  split; [|by rewrite <- Heq].
  unfold _clean_record_layer. run.
  rewrite (bind_returns _ _ _ _ _ _ Hrun). run.
  unfold modify, prepend. cbn [fst snd]. by rewrite Heq, app_nil_r.
Qed.

Lemma clean_record_layer_preserves conn :
  preserves wf (_clean_record_layer conn).
Proof.
  intros s Hs. destruct (record_layers s !! conn) as [conns|] eqn:Hc.
  - destruct (clean_record_layer_registered s conn conns Hs Hc) as [-> Hwf].
    done.
  - by rewrite clean_record_layer_unregistered.
Qed.

(** ** [_send_packet] and the SYN part of [_process_packet] *)

Section Packets.
Variable T : tunnel.

Lemma send_packet_eq conn conn_id control data sent s :
  _send_packet T conn conn_id control data sent s
  = (Return tt, pending sent (inl conn) s,
     [SendPacket conn (pack_header T control conn_id ++ data)]).
Proof. unfold _send_packet. rewrite bind_emit. by destruct sent. Qed.

Lemma bind_send_packet {B} conn conn_id control data sent (k : unit → M B) s :
  bind (_send_packet T conn conn_id control data sent) k s
  = prepend [SendPacket conn (pack_header T control conn_id ++ data)]
      (k tt (pending sent (inl conn) s)).
Proof. by rewrite (bind_returns _ _ _ _ _ _ (send_packet_eq _ _ _ _ _ _)). Qed.

Lemma send_packet_preserves conn conn_id control data sent :
  preserves wf (_send_packet T conn conn_id control data sent).
Proof. intros s Hs. rewrite send_packet_eq. by apply wf_pending. Qed.

Lemma process_syn_unregistered conn conn_id a s :
  record_layers s !! conn = None →
  process_syn T conn conn_id a s = (Raise KeyError, s, []).
Proof. intros Hc. unfold process_syn. by run. Qed.

Lemma process_syn_unopened conn conn_id a s conns :
  record_layers s !! conn = Some conns → conns !! conn_id = None →
  process_syn T conn conn_id a s = syn_unopened T conn conn_id a conns s.
Proof.
  intros Hc Hi. unfold process_syn, syn_unopened. run.
  rewrite decide_False by (by intros []).
  run. destruct (new_frontend a) as [|m].
  - run. simpl. by run.
  - run. by rewrite bind_send_packet.
Qed.

Lemma process_syn_open conn conn_id a s conns f0 :
  wf s → record_layers s !! conn = Some conns →
  conns !! conn_id = Some f0 →
  process_syn T conn conn_id a s
  = prepend [FrontClose f0]
      (syn_unopened T conn conn_id a (delete conn_id conns)
         (closed f0 conn_id conn conns s)).
Proof.
  intros Hs Hc Hi.
  rewrite <- (process_syn_unopened conn conn_id a
                (closed f0 conn_id conn conns s) (delete conn_id conns)).
  2: { simpl. by rewrite lookup_insert_eq. }
  2: { by rewrite lookup_delete_eq. }
  pose proof (wf_forward s Hs _ _ _ _ Hc Hi) as Hf.
  unfold process_syn at 1. run.
  rewrite decide_True by eauto.
  rewrite bind_assoc, (conns_getitem_eq _ _ _ _ conns Hc), Hi.
  rewrite (bind_returns _ _ _ _ _ _
             (close_frontend_registered s f0 false conn_id conn conns
                Hf Hc (mk_is_Some _ _ Hi))).
  f_equal. unfold process_syn. run.
  assert (record_layers (closed f0 conn_id conn conns s) !! conn
          = Some (delete conn_id conns)) as Hc'.
  { simpl. by rewrite lookup_insert_eq. }
  run. rewrite decide_False by (rewrite lookup_delete_eq; by intros []).
  by run.
Qed.

Lemma wf_syn_unopened conn conn_id a s conns :
  wf s → record_layers s !! conn = Some conns → conns !! conn_id = None →
  wf (final (syn_unopened T conn conn_id a conns s)).
Proof.
  intros Hs Hc Hi. unfold syn_unopened. destruct (new_frontend a); simpl.
  - by apply wf_opened.
  - by apply wf_pending.
Qed.

Lemma process_syn_preserves conn conn_id a :
  preserves wf (process_syn T conn conn_id a).
Proof.
  intros s Hs. destruct (record_layers s !! conn) as [conns|] eqn:Hc.
  2: { by rewrite process_syn_unregistered. }
  destruct (conns !! conn_id) as [f0|] eqn:Hi.
  - rewrite (process_syn_open _ _ _ _ conns f0), final_prepend by done.
    pose proof (wf_forward s Hs _ _ _ _ Hc Hi) as Hf.
    apply wf_syn_unopened.
    + by apply wf_closed.
    + simpl. by rewrite lookup_insert_eq.
    + by rewrite lookup_delete_eq.
  - rewrite (process_syn_unopened _ _ _ _ conns) by done.
    by apply wf_syn_unopened.
Qed.

Lemma process_packet_preserves conn packet a :
  preserves wf (_process_packet T conn packet a).
Proof.
  unfold _process_packet. destruct (unpack_packet T packet) as [[control i] p].
  apply preserves_bind; [apply preserves_get|]. intros s0.
  apply preserves_bind; [apply preserves_getitem|]. intros _.
  destruct (has_flag control (rst T)).
  { apply preserves_bind; [apply conns_getitem_preserves|].
    intros f. apply close_frontend_preserves. }
  apply preserves_bind.
  { destruct (has_flag control (syn T));
      [apply process_syn_preserves|apply preserves_ret]. }
  intros [|]; [|apply preserves_ret].
  apply preserves_bind.
  - destruct (has_flag control (dat T)); [|apply preserves_ret].
    apply preserves_bind; [apply conns_getitem_preserves|]. intros f.
    apply preserves_bind; [apply preserves_emit|]. intros _.
    destruct (front_sent a); [apply preserves_ret|].
    apply preserves_bind; [apply conns_getitem_preserves|]. intros f'.
    apply unfinished_add_preserves.
  - intros _. destruct (has_flag control (fin T)); [|apply preserves_ret].
    apply preserves_bind; [apply conns_getitem_preserves|].
    intros f. apply close_frontend_preserves.
Qed.

End Packets.

(** ** The handlers of the loop *)

Lemma wf_accepted s : wf s → wf (accepted s).
Proof.
  intros [H1 H2 H3 H4]. split; simpl.
  - intros c m i f Hm Hi. destruct (decide (c = allocated s)) as [->|Hne].
    + rewrite lookup_insert_eq in Hm. injection Hm as <-.
      by rewrite lookup_empty in Hi.
    + rewrite lookup_insert_ne in Hm by done. eauto.
  - intros f i c Hf. destruct (H2 _ _ _ Hf) as (m & Hm & Hi).
    exists m. split; [|done]. rewrite lookup_insert_ne; [done|].
    intros <-. pose proof (H3 _ (mk_is_Some _ _ Hm)). lia.
  - intros c Hc. destruct (decide (c = allocated s)) as [->|Hne]; [lia|].
    rewrite lookup_insert_ne in Hc by done. by apply Nat.lt_lt_succ_r, H3.
  - intros f Hf. by apply Nat.lt_lt_succ_r, H4.
Qed.

Lemma process_backend_eq s :
  _process_backend s
  = (Return tt, accepted s,
     [Log INFO (Msg "connected") "record" (Some (allocated s))]).
Proof. unfold _process_backend. by run. Qed.

Lemma process_backend_preserves : preserves wf _process_backend.
Proof. intros s Hs. rewrite process_backend_eq. by apply wf_accepted. Qed.

Lemma process_sending_preserves conn is_finished :
  preserves wf (_process_sending conn is_finished).
Proof.
  unfold _process_sending. apply preserves_bind.
  - destruct conn; apply preserves_emit.
  - intros _. destruct is_finished;
      [apply unfinished_remove_preserves|apply preserves_ret].
Qed.

Section Handlers.
Variable T : tunnel.

Lemma process_record_layer_preserves conn r :
  preserves wf (_process_record_layer T conn r).
Proof.
  destruct r as [e| |packets]; simpl.
  - apply preserves_bind; [apply clean_record_layer_preserves|]. intros _.
    apply preserves_bind; [apply preserves_emit|]. intros _.
    apply preserves_log.
  - apply preserves_bind; [apply clean_record_layer_preserves|]. intros _.
    apply preserves_bind; [apply preserves_emit|]. intros _.
    apply preserves_bind; [apply preserves_emit|]. intros _.
    apply preserves_log.
  - apply preserves_for_each. intros p. apply process_packet_preserves.
Qed.

Lemma process_frontend_preserves f r sent :
  preserves wf (_process_frontend T f r sent).
Proof.
  unfold _process_frontend. apply preserves_bind.
  - destruct r; try apply preserves_ret.
    apply preserves_bind; [apply preserves_get|]. intros s.
    apply preserves_bind; [apply preserves_getitem|]. intros ci.
    apply preserves_bind.
    { destruct (is_ascii str); [apply preserves_ret|apply preserves_raise]. }
    intros _. apply preserves_bind; [apply preserves_log|]. intros _.
    apply preserves_ret.
  - intros cd. destruct (recv_control T cd.1 cd.2) as [control data].
    destruct (negb (control =? 0)); [|apply preserves_ret].
    apply preserves_bind; [apply preserves_get|]. intros s.
    apply preserves_bind; [apply preserves_getitem|]. intros [conn_id conn].
    apply preserves_bind; [apply send_packet_preserves|]. intros _.
    destruct (has_flag control (rst T)); [apply close_frontend_preserves|].
    destruct (has_flag control (fin T)); [apply close_frontend_preserves|].
    apply preserves_ret.
Qed.

Lemma process_preserves sel : preserves wf (_process T sel).
Proof.
  destruct sel as [errno|r w]; simpl.
  - destruct (errno =? EINTR); [apply preserves_ret|apply preserves_raise].
  - apply preserves_bind.
    + apply preserves_for_each. intros [|conn x|f x sent]; simpl.
      * apply process_backend_preserves.
      * apply process_record_layer_preserves.
      * apply process_frontend_preserves.
    + intros _. apply preserves_for_each. intros c.
      apply process_sending_preserves.
Qed.

Lemma run_iteration_preserves sel : preserves wf (run_iteration T sel).
Proof.
  unfold run_iteration. apply preserves_try_except.
  - apply process_preserves.
  - intros e. apply preserves_bind; [apply preserves_log|]. intros _.
    apply preserves_log.
Qed.

(** The registry invariant holds between any two turns of the loop. *)
Lemma reachable_wf s : reachable T s → wf s.
Proof.
  induction 1 as [|s sel _ IH]; [apply wf_init|].
  by apply run_iteration_preserves.
Qed.


(** The state a handler leaves is the state the loop is in after a turn in
    which [select] reported that one connection. *)
Lemma run_iteration_readable x s :
  final (run_iteration T (Selected [x] []) s) = final (process_readable T x s).
Proof.
  unfold run_iteration, try_except. simpl.
  unfold bind. destruct (process_readable T x s) as [[[[]|e] s1] t1]; done.
Qed.

Lemma reachable_readable x s :
  reachable T s → reachable T (final (process_readable T x s)).
Proof. intros Hs. rewrite <- run_iteration_readable. by constructor. Qed.

Lemma run_iteration_packet conn packet a s :
  final (run_iteration T
           (Selected [ReadRecordLayer conn (ReceivePackets [(packet, a)])] [])
           s)
  = final (_process_packet T conn packet a s).
Proof.
  rewrite run_iteration_readable. simpl. unfold bind.
  by destruct (_process_packet T conn packet a s) as [[[[]|e] s1] t1].
Qed.

Lemma reachable_packet conn packet a s :
  reachable T s → reachable T (final (_process_packet T conn packet a s)).
Proof. intros Hs. rewrite <- run_iteration_packet. by constructor. Qed.

End Handlers.

(** * The connection life cycle *)

Lemma has_flag_self x : x ≠ 0 → has_flag x x = true.
Proof.
  intros Hx. unfold has_flag. rewrite Z.land_diag.
  by apply negb_true_iff, Z.eqb_neq.
Qed.

Lemma reachable_state_open : reachable example_tunnel state_open.
Proof. apply reachable_turn, reachable_init. Qed.

Lemma reachable_state_open2 : reachable example_tunnel state_open2.
Proof. apply reachable_turn, reachable_state_open. Qed.

Lemma reachable_state_pending : reachable example_tunnel state_pending.
Proof. apply reachable_turn, reachable_init. Qed.

(** C3. A packet with the RST flag for an Open id does a reset-close of that
    virtual connection and nothing else: the frontend is reset, it leaves
    both mappings of the registry, the payload of the packet goes nowhere
    and its SYN, DAT and FIN flags are not looked at. *)
Theorem rst_wins T s conn packet control conn_id payload a conns f :
  reachable T s →
  unpack_packet T packet = (control, conn_id, payload) →
  has_flag control (rst T) = true →
  record_layers s !! conn = Some conns →
  conns !! conn_id = Some f →
  _process_packet T conn packet a s
  = (Return tt, closed f conn_id conn conns s, [FrontReset f])
  ∧ frontends (closed f conn_id conn conns s) !! f = None
  ∧ is_unopened (closed f conn_id conn conns s) conn conn_id
  ∧ unfinished (closed f conn_id conn conns s) = unfinished s.
Proof.
  intros Hs%reachable_wf Hp Hrst Hc Hi. split_and!.
  - pose proof (wf_forward s Hs _ _ _ _ Hc Hi) as Hf.
    unfold _process_packet. rewrite Hp. run.
    rewrite (conns_getitem_eq _ _ _ _ conns Hc), Hi.
    apply close_frontend_registered; eauto.
  - simpl. apply lookup_delete_eq.
  - exists (delete conn_id conns). simpl.
    by rewrite lookup_insert_eq, lookup_delete_eq.
  - done.
Qed.

Lemma rst_wins_witness :
  _process_packet example_tunnel 0%nat (example_packet 15 1 hi) answers_ok
    state_open
  = (Return tt, closed 1%nat 1 0%nat {[1 := 1%nat]} state_open,
     [FrontReset 1%nat])
  ∧ frontends (closed 1%nat 1 0%nat {[1 := 1%nat]} state_open) !! 1%nat = None
  ∧ is_unopened (closed 1%nat 1 0%nat {[1 := 1%nat]} state_open) 0%nat 1
  ∧ unfinished (closed 1%nat 1 0%nat {[1 := 1%nat]} state_open)
    = unfinished state_open.
Proof.
  apply (rst_wins example_tunnel state_open 0%nat (example_packet 15 1 hi)
           15 1 hi answers_ok {[1 := 1%nat]} 1%nat).
  - apply reachable_state_open.
  - reflexivity.
  - reflexivity.
  - vm_compute. reflexivity.
  - reflexivity.
Defined.

(** C6. SYN for an Unopened id when the frontend factory is unavailable: one
    packet goes out for that id, with the RST flag and no payload; the
    registry is as before, so the id stays Unopened, and nothing else happens
    to the record layer (it joins the pending-write set if that packet did
    not go out at once). *)
Theorem syn_frontend_unavailable T s conn packet control conn_id payload a
    conns m :
  unpack_packet T packet = (control, conn_id, payload) →
  has_flag control (rst T) = false →
  has_flag control (syn T) = true →
  record_layers s !! conn = Some conns →
  conns !! conn_id = None →
  new_frontend a = FrontendUnavailableError m →
  _process_packet T conn packet a s
  = (Return tt, pending (packet_sent a) (inl conn) s,
     [Log ERROR (Msg m) "frontend" (Some conn);
      SendPacket conn (pack_header T (rst T) conn_id ++ [])])
  ∧ record_layers (pending (packet_sent a) (inl conn) s) = record_layers s
  ∧ frontends (pending (packet_sent a) (inl conn) s) = frontends s
  ∧ is_unopened (pending (packet_sent a) (inl conn) s) conn conn_id.
Proof.
  intros Hp Hrst Hsyn Hc Hi Ha.
  assert (record_layers (pending (packet_sent a) (inl conn) s)
          = record_layers s) as Hr by (by destruct (packet_sent a)).
  split_and!; [|done|by destruct (packet_sent a)|].
  - unfold _process_packet. rewrite Hp. run.
    pose proof (process_syn_unopened T conn conn_id a s conns Hc Hi) as Hrun.
    unfold syn_unopened in Hrun. rewrite Ha in Hrun.
    rewrite (bind_returns _ _ _ _ _ _ Hrun). by run.
  - exists conns. by rewrite Hr.
Qed.

Lemma syn_frontend_unavailable_witness :
  let a := PacketAnswers (FrontendUnavailableError "no route") true true in
  _process_packet example_tunnel 0%nat (example_packet 1 3 []) a state_open
  = (Return tt, pending (packet_sent a) (inl 0%nat) state_open,
     [Log ERROR (Msg "no route") "frontend" (Some 0%nat);
      SendPacket 0%nat (pack_header example_tunnel (rst example_tunnel) 3 ++ [])])
  ∧ record_layers (pending (packet_sent a) (inl 0%nat) state_open)
    = record_layers state_open
  ∧ frontends (pending (packet_sent a) (inl 0%nat) state_open)
    = frontends state_open
  ∧ is_unopened (pending (packet_sent a) (inl 0%nat) state_open) 0%nat 3.
Proof.
  intros a.
  apply (syn_frontend_unavailable example_tunnel state_open 0%nat
           (example_packet 1 3 []) 1 3 [] a {[1 := 1%nat]} "no route").
  - reflexivity.
  - reflexivity.
  - reflexivity.
  - vm_compute. reflexivity.
  - reflexivity.
  - reflexivity.
Defined.

Lemma pending_registry sent c s :
  record_layers (pending sent c s) = record_layers s
  ∧ frontends (pending sent c s) = frontends s
  ∧ allocated (pending sent c s) = allocated s.
Proof. by destruct sent. Qed.

(** What [_process_frontend] does once [control] is set for a registered
    frontend: the packet, then the close the flags ask for. *)
Lemma process_frontend_close T s f conn conn_id conns sent control reset :
  wf s → record_layers s !! conn = Some conns → conns !! conn_id = Some f →
  has_flag control (rst T) = reset →
  (reset = false → has_flag control (fin T) = true) →
  (s0 <- get ;;
   ci <- getitem (frontends s0 !! f) ;;
   let '(conn_id, conn) := ci in
   _send_packet T conn conn_id control [] sent ;;
   if has_flag control (rst T) then _close_frontend f true
   else if has_flag control (fin T) then _close_frontend f false
   else ret tt) s
  = (Return tt, closed f conn_id conn conns (pending sent (inl conn) s),
     [SendPacket conn (pack_header T control conn_id ++ []);
      if reset then FrontReset f else FrontClose f]).
Proof.
  intros Hs Hc Hi Hrst Hfin.
  pose proof (wf_forward s Hs _ _ _ _ Hc Hi) as Hf.
  destruct (pending_registry sent (inl conn) s) as (Hr' & Hf' & _).
  run. rewrite bind_send_packet.
  assert (_close_frontend f reset (pending sent (inl conn) s)
          = (Return tt, closed f conn_id conn conns (pending sent (inl conn) s),
             [if reset then FrontReset f else FrontClose f])) as Hclose.
  { apply close_frontend_registered; rewrite ?Hr', ?Hf'; eauto. }
  destruct reset.
  - by rewrite Hclose.
  - rewrite (Hfin eq_refl). by rewrite Hclose.
Qed.

(** C7. When the frontend of an Open virtual connection reports the end of
    its stream ([recv] gives [None]), one packet goes out on the owning
    record layer, with the FIN flag, the id of the connection and no
    payload; then the frontend is closed (not reset) and leaves the
    registry. *)
Theorem frontend_end_of_stream T s f conn conn_id conns sent :
  reachable T s →
  fin T ≠ 0 →
  has_flag (fin T) (rst T) = false →
  record_layers s !! conn = Some conns →
  conns !! conn_id = Some f →
  _process_frontend T f RecvNone sent s
  = (Return tt, closed f conn_id conn conns (pending sent (inl conn) s),
     [SendPacket conn (pack_header T (fin T) conn_id ++ []); FrontClose f])
  ∧ frontends (closed f conn_id conn conns (pending sent (inl conn) s)) !! f
    = None
  ∧ is_unopened (closed f conn_id conn conns (pending sent (inl conn) s))
      conn conn_id.
Proof.
  intros Hs%reachable_wf Hfin Hfr Hc Hi. split_and!.
  - unfold _process_frontend. rewrite bind_ret. simpl.
    rewrite (proj2 (negb_true_iff _) (proj2 (Z.eqb_neq _ _) Hfin)).
    apply (process_frontend_close T s f conn conn_id conns sent (fin T) false);
      try done.
    intros _. by apply has_flag_self.
  - simpl. apply lookup_delete_eq.
  - exists (delete conn_id conns). simpl.
    by rewrite lookup_insert_eq, lookup_delete_eq.
Qed.

Lemma frontend_end_of_stream_witness :
  _process_frontend example_tunnel 1%nat RecvNone true state_open
  = (Return tt,
     closed 1%nat 1 0%nat {[1 := 1%nat]} (pending true (inl 0%nat) state_open),
     [SendPacket 0%nat (pack_header example_tunnel (fin example_tunnel) 1 ++ []);
      FrontClose 1%nat])
  ∧ frontends (closed 1%nat 1 0%nat {[1 := 1%nat]}
                 (pending true (inl 0%nat) state_open)) !! 1%nat
    = None
  ∧ is_unopened (closed 1%nat 1 0%nat {[1 := 1%nat]}
                   (pending true (inl 0%nat) state_open)) 0%nat 1.
Proof.
  apply (frontend_end_of_stream example_tunnel state_open 1%nat 0%nat 1
           {[1 := 1%nat]} true).
  - apply reachable_state_open.
  - discriminate.
  - reflexivity.
  - vm_compute. reflexivity.
  - reflexivity.
Defined.

Lemma run_iteration_raises T sel s e s1 t1 :
  _process T sel s = (Raise e, s1, t1) →
  run_iteration T sel s = (Return tt, s1, t1 ++ unknown_exception e).
Proof. intros H. unfold run_iteration, try_except. by rewrite H. Qed.

Lemma run_iteration_cons T x r w s s1 t1 :
  process_readable T x s = (Return tt, s1, t1) →
  run_iteration T (Selected (x :: r) w) s
  = prepend t1 (run_iteration T (Selected r w) s1).
Proof.
  intros Hx. unfold run_iteration, try_except. simpl.
  rewrite bind_assoc, (bind_returns _ _ _ _ _ _ Hx).
  destruct (bind (for_each r (process_readable T)) _ s1)
    as [[[[]|e] s2] t2]; simpl; [done|].
  unfold prepend. simpl. by rewrite !app_assoc.
Qed.

Lemma run_iteration_cons_raises T x r w s e s1 t1 :
  process_readable T x s = (Raise e, s1, t1) →
  run_iteration T (Selected (x :: r) w) s
  = (Return tt, s1, t1 ++ unknown_exception e).
Proof.
  intros Hx. apply run_iteration_raises. simpl.
  by rewrite bind_assoc, (bind_raises _ _ _ _ _ _ Hx).
Qed.

(** The handler of [except Exception as e] in [_process_frontend], for a
    registered frontend. *)
Lemma recv_handler_eq {B} T s f conn conn_id str (k : Z * option bytes → M B) :
  frontends s !! f = Some (conn_id, conn) →
  bind (s0 <- get ;;
        ci <- getitem (frontends s0 !! f) ;;
        (if is_ascii str then ret tt else raise UnicodeDecodeError) ;;
        log ERROR (Msg ("unknown error: " ++ str)) "frontend" (Some ci.2) ;;
        ret (rst T, Some [])) k s
  = if is_ascii str
    then prepend [Log ERROR (Msg ("unknown error: " ++ str)) "frontend"
                    (Some conn)]
           (k (rst T, Some []) s)
    else (Raise UnicodeDecodeError, s, []).
Proof.
  intros Hf. rewrite bind_assoc. run. rewrite bind_assoc. run.
  rewrite bind_assoc. destruct (is_ascii str); [|done].
  by rewrite bind_ret, bind_assoc, bind_log, bind_ret.
Qed.

(** X19. When [recv] of the frontend of an Open virtual connection raises an
    error whose [str] is ASCII, the failure stays with that connection: the
    error is logged, one packet goes out for its id with the RST flag and no
    payload, the frontend is reset (not closed) and leaves the registry. The
    owning record layer keeps its other virtual connections, and the other
    record layers and frontends are as before. *)
Theorem recv_error_becomes_rst T s f conn conn_id conns sent str :
  reachable T s →
  rst T ≠ 0 →
  is_ascii str = true →
  record_layers s !! conn = Some conns →
  conns !! conn_id = Some f →
  let s' := closed f conn_id conn conns (pending sent (inl conn) s) in
  _process_frontend T f (RecvRaises str) sent s
  = (Return tt, s',
     [Log ERROR (Msg ("unknown error: " ++ str)) "frontend" (Some conn);
      SendPacket conn (pack_header T (rst T) conn_id ++ []);
      FrontReset f])
  ∧ frontends s' !! f = None
  ∧ record_layers s' !! conn = Some (delete conn_id conns)
  ∧ (∀ c, c ≠ conn → record_layers s' !! c = record_layers s !! c)
  ∧ (∀ f', f' ≠ f → frontends s' !! f' = frontends s !! f').
Proof.
  intros Hs%reachable_wf Hrst Hstr Hc Hi s'.
  destruct (pending_registry sent (inl conn) s) as (Hr' & Hf' & _).
  split_and!.
  - pose proof (wf_forward s Hs _ _ _ _ Hc Hi) as Hf.
    unfold _process_frontend.
    rewrite (recv_handler_eq T s f conn conn_id str _ Hf), Hstr. simpl.
    rewrite (proj2 (negb_true_iff _) (proj2 (Z.eqb_neq _ _) Hrst)).
    rewrite (process_frontend_close T s f conn conn_id conns sent (rst T) true);
      try done.
    by apply has_flag_self.
  - subst s'. simpl. apply lookup_delete_eq.
  - subst s'. simpl. apply lookup_insert_eq.
  - intros c Hne. subst s'. simpl. rewrite Hr'. by apply lookup_insert_ne.
  - intros f' Hne. subst s'. simpl. rewrite Hf'. by apply lookup_delete_ne.
Qed.

Lemma recv_error_becomes_rst_witness :
  let s' := closed 1%nat 1 0%nat {[1 := 1%nat; 2 := 2%nat]}
              (pending true (inl 0%nat) state_open2) in
  _process_frontend example_tunnel 1%nat (RecvRaises "reset by peer") true
    state_open2
  = (Return tt, s',
     [Log ERROR (Msg ("unknown error: " ++ "reset by peer")) "frontend"
        (Some 0%nat);
      SendPacket 0%nat (pack_header example_tunnel (rst example_tunnel) 1 ++ []);
      FrontReset 1%nat])
  ∧ frontends s' !! 1%nat = None
  ∧ record_layers s' !! 0%nat = Some (delete 1 {[1 := 1%nat; 2 := 2%nat]})
  ∧ (∀ c, c ≠ 0%nat → record_layers s' !! c = record_layers state_open2 !! c)
  ∧ (∀ f', f' ≠ 1%nat → frontends s' !! f' = frontends state_open2 !! f').
Proof.
  apply (recv_error_becomes_rst example_tunnel state_open2 1%nat 0%nat 1
           {[1 := 1%nat; 2 := 2%nat]} true "reset by peer").
  - apply reachable_state_open2.
  - discriminate.
  - reflexivity.
  - vm_compute. reflexivity.
  - reflexivity.
Defined.

(** C8, where the code falls short of it. When [recv] of the frontend of an
    Open virtual connection raises an error whose [str] has a byte that is
    not ASCII, building the log message raises [UnicodeDecodeError] in the
    handler, before [control] is set: no packet is sent, the frontend is
    not reset and stays in the registry, and the error leaves [_process], so
    that the rest of the turn is dropped; [run] logs it and goes on. *)
Theorem recv_error_not_ascii T s f conn conn_id conns sent str r w :
  reachable T s →
  is_ascii str = false →
  record_layers s !! conn = Some conns →
  conns !! conn_id = Some f →
  _process_frontend T f (RecvRaises str) sent s
  = (Raise UnicodeDecodeError, s, [])
  ∧ is_open s conn conn_id f
  ∧ run_iteration T (Selected (ReadFrontend f (RecvRaises str) sent :: r) w) s
    = (Return tt, s, unknown_exception UnicodeDecodeError).
Proof.
  intros Hs%reachable_wf Hstr Hc Hi.
  pose proof (wf_forward s Hs _ _ _ _ Hc Hi) as Hf.
  assert (_process_frontend T f (RecvRaises str) sent s
          = (Raise UnicodeDecodeError, s, [])) as Hraise.
  { unfold _process_frontend.
    by rewrite (recv_handler_eq T s f conn conn_id str _ Hf), Hstr. }
  split_and!; [done|by exists conns|].
  by rewrite (run_iteration_cons_raises T _ r w s UnicodeDecodeError s []).
Qed.

Lemma recv_error_not_ascii_witness :
  _process_frontend example_tunnel 1%nat (RecvRaises not_ascii_message) true
    state_open
  = (Raise UnicodeDecodeError, state_open, [])
  ∧ is_open state_open 0%nat 1 1%nat
  ∧ run_iteration example_tunnel
      (Selected (ReadFrontend 1%nat (RecvRaises not_ascii_message) true
                 :: [ReadBackend]) []) state_open
    = (Return tt, state_open, unknown_exception UnicodeDecodeError).
Proof.
  apply (recv_error_not_ascii example_tunnel state_open 1%nat 0%nat 1
           {[1 := 1%nat]} true not_ascii_message [ReadBackend] []).
  - apply reachable_state_open.
  - reflexivity.
  - vm_compute. reflexivity.
  - reflexivity.
Defined.

(** ** Packets for an id that is not registered *)

Lemma process_packet_unregistered_id T s conn packet control conn_id payload
    a conns :
  unpack_packet T packet = (control, conn_id, payload) →
  record_layers s !! conn = Some conns →
  conns !! conn_id = None →
  has_flag control (syn T) = false →
  has_flag control (rst T) = true ∨ has_flag control (dat T) = true
    ∨ has_flag control (fin T) = true →
  _process_packet T conn packet a s = (Raise KeyError, s, []).
Proof.
  intros Hp Hc Hi Hsyn Hflags. unfold _process_packet. rewrite Hp. run.
  destruct (has_flag control (rst T)) eqn:Hrst.
  { by rewrite (conns_getitem_eq _ _ _ _ conns Hc), Hi. }
  run. destruct (has_flag control (dat T)) eqn:Hdat.
  { by rewrite !bind_assoc, (conns_getitem_eq _ _ _ _ conns Hc), Hi. }
  run. destruct Hflags as [?|[?|Hfin]]; try done.
  by rewrite Hfin, (conns_getitem_eq _ _ _ _ conns Hc), Hi.
Qed.

(** C10. A packet with RST, DAT or FIN and without SYN, for an id that is
    not registered under its record layer, makes [_process_packet] raise a
    lookup error with nothing done. The error leaves the loop over the
    packets of that receive, so the packets after it are not processed,
    whatever they are, and it leaves [_process]; [run] catches it, logs it
    and goes on. *)
Theorem unregistered_id_raises T s0 s conn before t packet control conn_id
    payload a conns rest r w :
  for_each before (λ p, _process_packet T conn p.1 p.2) s0
    = (Return tt, s, t) →
  unpack_packet T packet = (control, conn_id, payload) →
  has_flag control (syn T) = false →
  has_flag control (rst T) = true ∨ has_flag control (dat T) = true
    ∨ has_flag control (fin T) = true →
  record_layers s !! conn = Some conns →
  conns !! conn_id = None →
  _process_packet T conn packet a s = (Raise KeyError, s, [])
  ∧ _process_record_layer T conn
      (ReceivePackets (before ++ (packet, a) :: rest)) s0
    = (Raise KeyError, s, t)
  ∧ run_iteration T
      (Selected
         (ReadRecordLayer conn
            (ReceivePackets (before ++ (packet, a) :: rest)) :: r) w) s0
    = (Return tt, s, t ++ unknown_exception KeyError).
Proof.
  intros Hbefore Hp Hsyn Hflags Hc Hi.
  pose proof (process_packet_unregistered_id T s conn packet control conn_id
                payload a conns Hp Hc Hi Hsyn Hflags) as Hraise.
  assert (_process_record_layer T conn
            (ReceivePackets (before ++ (packet, a) :: rest)) s0
          = (Raise KeyError, s, t)) as Hbatch.
  { simpl. rewrite for_each_app, (bind_returns _ _ _ _ _ _ Hbefore).
    rewrite for_each_cons. simpl.
    rewrite (bind_raises _ _ _ _ _ _ Hraise).
    by rewrite prepend_triple, app_nil_r. }
  split_and!; [done..|].
  by apply run_iteration_cons_raises.
Qed.

Lemma unregistered_id_raises_witness :
  let fin7 := example_packet 4 7 [] in
  let syn5 := example_packet 1 5 [] in
  _process_packet example_tunnel 0%nat fin7 answers_ok state_open
  = (Raise KeyError, state_open, [])
  ∧ _process_record_layer example_tunnel 0%nat
      (ReceivePackets ([] ++ (fin7, answers_ok) :: [(syn5, answers_ok)]))
      state_open
    = (Raise KeyError, state_open, [])
  ∧ run_iteration example_tunnel
      (Selected
         (ReadRecordLayer 0%nat
            (ReceivePackets ([] ++ (fin7, answers_ok) :: [(syn5, answers_ok)]))
          :: [ReadBackend]) []) state_open
    = (Return tt, state_open, [] ++ unknown_exception KeyError).
Proof.
  intros fin7 syn5.
  apply (unregistered_id_raises example_tunnel state_open state_open 0%nat []
           [] fin7 4 7 [] answers_ok {[1 := 1%nat]} [(syn5, answers_ok)]
           [ReadBackend] []).
  - reflexivity.
  - reflexivity.
  - reflexivity.
  - right. right. reflexivity.
  - vm_compute. reflexivity.
  - reflexivity.
Defined.

(** C2, as the code has it. A DAT packet without SYN for an id that is not
    registered under its record layer is not skipped: [_process_packet]
    raises a lookup error. No payload is delivered and the registry and the
    pending-write set stay as they are; [run] catches the error, logs it and
    goes on with its next turn, but the packets after this one and the
    connections [select] reported after this record layer are dropped for
    this turn. *)
Theorem dat_unopened_raises T s conn packet control conn_id payload a conns
    rest r w :
  unpack_packet T packet = (control, conn_id, payload) →
  has_flag control (syn T) = false →
  has_flag control (dat T) = true →
  record_layers s !! conn = Some conns →
  conns !! conn_id = None →
  _process_packet T conn packet a s = (Raise KeyError, s, [])
  ∧ run_iteration T
      (Selected
         (ReadRecordLayer conn (ReceivePackets ((packet, a) :: rest)) :: r) w)
      s
    = (Return tt, s, unknown_exception KeyError).
Proof.
  intros Hp Hsyn Hdat Hc Hi.
  pose proof (process_packet_unregistered_id T s conn packet control conn_id
                payload a conns Hp Hc Hi Hsyn (or_intror (or_introl Hdat)))
    as Hraise.
  split; [done|].
  rewrite (run_iteration_cons_raises T _ r w s KeyError s []); [done|].
  simpl. by rewrite (bind_raises _ _ _ _ _ _ Hraise).
Qed.

Lemma dat_unopened_raises_witness :
  let dat7 := example_packet 2 7 hi in
  let syn5 := example_packet 1 5 [] in
  _process_packet example_tunnel 0%nat dat7 answers_ok state_open
  = (Raise KeyError, state_open, [])
  ∧ run_iteration example_tunnel
      (Selected
         (ReadRecordLayer 0%nat
            (ReceivePackets ((dat7, answers_ok) :: [(syn5, answers_ok)]))
          :: [ReadBackend]) []) state_open
    = (Return tt, state_open, unknown_exception KeyError).
Proof.
  intros dat7 syn5.
  apply (dat_unopened_raises example_tunnel state_open 0%nat dat7 2 7 hi
           answers_ok {[1 := 1%nat]} [(syn5, answers_ok)] [ReadBackend] []).
  - reflexivity.
  - reflexivity.
  - reflexivity.
  - vm_compute. reflexivity.
  - reflexivity.
Defined.

(** C2 as it is written does not hold: with id 1 open under record layer 0,
    a DAT packet for id 7 does not return with nothing done but raises, and
    the SYN packet for id 5 that comes after it in the same receive opens
    nothing, while it does when it comes alone. *)
Lemma dat_unopened_not_noop :
  let dat7 := (example_packet 2 7 hi, answers_ok) in
  let syn5 := (example_packet 1 5 [], answers_ok) in
  let after_both :=
    final (run_iteration example_tunnel
             (Selected [ReadRecordLayer 0%nat (ReceivePackets [dat7; syn5])] [])
             state_open) in
  let after_syn :=
    final (run_iteration example_tunnel
             (Selected [ReadRecordLayer 0%nat (ReceivePackets [syn5])] [])
             state_open) in
  _process_packet example_tunnel 0%nat dat7.1 dat7.2 state_open
    ≠ (Return tt, state_open, [])
  ∧ is_unopened state_open 0%nat 7
  ∧ is_open after_syn 0%nat 5 2%nat
  ∧ is_unopened after_both 0%nat 5.
Proof.
  intros dat7 syn5 after_both after_syn. split_and!.
  - intros H. apply (f_equal outcome) in H. vm_compute in H. discriminate.
  - exists {[1 := 1%nat]}. split; vm_compute; reflexivity.
  - exists {[1 := 1%nat; 5 := 2%nat]}. split; vm_compute; reflexivity.
  - exists {[1 := 1%nat]}. split; vm_compute; reflexivity.
Qed.

(** ** The pending-write set *)

Lemma wlist_NoDup s : NoDup (wlist s).
Proof. unfold wlist. apply NoDup_elements. Qed.

Lemma NoDup_filter_eq_length {A} `{EqDecision A} (x : A) (l : list A) :
  NoDup l → x ∈ l → length (filter (λ y, y = x) l) = 1%nat.
Proof.
  induction 1 as [|y l Hy Hnd IH]; intros Hx; [by apply elem_of_nil in Hx|].
  rewrite filter_cons. destruct (decide (y = x)) as [->|Hne].
  - simpl. f_equal.
    destruct (filter (λ y, y = x) l) as [|z l'] eqn:Hl; [done|].
    assert (z ∈ filter (λ y, y = x) l) as Hz by (rewrite Hl; left).
    apply list_elem_of_filter in Hz as [-> Hz]. done.
  - apply IH. apply elem_of_cons in Hx as [->|Hx]; done.
Qed.

(** No step of [_close_frontend] touches the pending-write set. *)
Lemma close_frontend_unfinished f reset s :
  unfinished (final (_close_frontend f reset s)) = unfinished s.
Proof.
  assert (preserves (λ s', unfinished s' = unfinished s)
            (_close_frontend f reset)) as H; [|by apply H].
  unfold _close_frontend.
  apply preserves_bind; [destruct reset; apply preserves_emit|]. intros _.
  apply preserves_bind; [apply preserves_get|]. intros s1.
  apply preserves_bind; [apply preserves_getitem|]. intros [i c].
  apply preserves_bind; [by apply preserves_modify|]. intros _.
  apply preserves_bind; [apply preserves_get|]. intros s2.
  apply preserves_bind; [apply preserves_getitem|]. intros conns.
  apply preserves_bind; [apply preserves_getitem|]. intros _.
  by apply preserves_modify.
Qed.

(** ** Tearing a record layer down *)

Lemma torn_down_frontends conn s f i c :
  frontends (torn_down conn s) !! f = Some (i, c)
  ↔ frontends s !! f = Some (i, c) ∧ c ≠ conn.
Proof. simpl. by rewrite map_lookup_filter_Some. Qed.

Lemma torn_down_no_owner conn s f i :
  frontends (torn_down conn s) !! f ≠ Some (i, conn).
Proof. rewrite torn_down_frontends. by intros [_ ?]. Qed.

Lemma torn_down_former conn s conns i f :
  wf s → record_layers s !! conn = Some conns → conns !! i = Some f →
  frontends (torn_down conn s) !! f = None.
Proof.
  intros Hs Hc Hi. pose proof (wf_forward s Hs _ _ _ _ Hc Hi) as Hf.
  destruct (frontends (torn_down conn s) !! f) as [[j c]|] eqn:E; [|done].
  apply torn_down_frontends in E as [E Hne]. congruence.
Qed.

Lemma process_record_layer_raises_eq T s conn conns e :
  wf s → record_layers s !! conn = Some conns →
  _process_record_layer T conn (ReceiveRaises e) s
  = (Return tt, torn_down conn s,
     (FrontClose <$> (map_to_list conns).*2)
     ++ [BackendClose conn;
         Log WARNING (Msg (critical_message e)) "record" (Some conn)]).
Proof.
  intros Hs Hc.
  destruct (clean_record_layer_registered s conn conns Hs Hc) as [Hrun _].
  simpl. rewrite (bind_returns _ _ _ _ _ _ Hrun). run.
  unfold log, emit, prepend. cbn [fst snd]. by rewrite <- !app_assoc.
Qed.

Lemma process_record_layer_none_eq T s conn conns :
  wf s → record_layers s !! conn = Some conns →
  _process_record_layer T conn ReceiveNone s
  = (Return tt, torn_down conn s,
     (FrontClose <$> (map_to_list conns).*2)
     ++ [RecordClose conn; BackendClose conn;
         Log INFO (Msg "disconnected") "record" (Some conn)]).
Proof.
  intros Hs Hc.
  destruct (clean_record_layer_registered s conn conns Hs Hc) as [Hrun _].
  simpl. rewrite (bind_returns _ _ _ _ _ _ Hrun). run.
  unfold log, emit, prepend. cbn [fst snd]. by rewrite <- !app_assoc.
Qed.

(** C5. When the receive of a record layer raises a critical exception
    (wrong hash, invalid header, remote reset, insecure closing), that
    record layer and its virtual connections are torn down: each of its
    frontends is closed (none is reset), its transport is closed and a
    warning is logged. The exception goes no further: the handler returns,
    the other record layers and their frontends are registered as before,
    and the turn of the loop goes on with the other ready connections. *)
Theorem critical_error_teardown T s conn conns e r w :
  reachable T s →
  record_layers s !! conn = Some conns →
  let t := (FrontClose <$> (map_to_list conns).*2)
           ++ [BackendClose conn;
               Log WARNING (Msg (critical_message e)) "record" (Some conn)] in
  _process_record_layer T conn (ReceiveRaises e) s
  = (Return tt, torn_down conn s, t)
  ∧ record_layers (torn_down conn s) !! conn = None
  ∧ (∀ i f, conns !! i = Some f → frontends (torn_down conn s) !! f = None)
  ∧ (∀ c, c ≠ conn →
       record_layers (torn_down conn s) !! c = record_layers s !! c)
  ∧ (∀ f i c, c ≠ conn →
       frontends (torn_down conn s) !! f = Some (i, c)
       ↔ frontends s !! f = Some (i, c))
  ∧ run_iteration T
      (Selected (ReadRecordLayer conn (ReceiveRaises e) :: r) w) s
    = prepend t (run_iteration T (Selected r w) (torn_down conn s)).
Proof.
  intros Hs%reachable_wf Hc t.
  pose proof (process_record_layer_raises_eq T s conn conns e Hs Hc) as Hrun.
  split_and!.
  - done.
  - simpl. apply lookup_delete_eq.
  - intros i f Hi. by apply (torn_down_former conn s conns i).
  - intros c Hne. simpl. by apply lookup_delete_ne.
  - intros f i c Hne. rewrite torn_down_frontends.
    split; [by intros [? _]|by intros ?].
  - by apply run_iteration_cons.
Qed.

Lemma critical_error_teardown_witness :
  let conns : gmap Z nat := {[1 := 1%nat; 2 := 2%nat]} in
  let t := (FrontClose <$> (map_to_list conns).*2)
           ++ [BackendClose 0%nat;
               Log WARNING (Msg (critical_message HashfailError)) "record"
                 (Some 0%nat)] in
  _process_record_layer example_tunnel 0%nat (ReceiveRaises HashfailError)
    state_open2
  = (Return tt, torn_down 0%nat state_open2, t)
  ∧ record_layers (torn_down 0%nat state_open2) !! 0%nat = None
  ∧ (∀ i f, conns !! i = Some f →
       frontends (torn_down 0%nat state_open2) !! f = None)
  ∧ (∀ c, c ≠ 0%nat →
       record_layers (torn_down 0%nat state_open2) !! c
       = record_layers state_open2 !! c)
  ∧ (∀ f i c, c ≠ 0%nat →
       frontends (torn_down 0%nat state_open2) !! f = Some (i, c)
       ↔ frontends state_open2 !! f = Some (i, c))
  ∧ run_iteration example_tunnel
      (Selected (ReadRecordLayer 0%nat (ReceiveRaises HashfailError)
                 :: [ReadBackend]) []) state_open2
    = prepend t
        (run_iteration example_tunnel (Selected [ReadBackend] [])
           (torn_down 0%nat state_open2)).
Proof.
  intros conns.
  apply (critical_error_teardown example_tunnel state_open2 0%nat conns
           HashfailError [ReadBackend] []).
  - apply reachable_state_open2.
  - vm_compute. reflexivity.
Defined.

(** The loop of [run] after the last turn, over a part [l] of the record
    layers. *)
Lemma shutdown_loop s (l : list nat) :
  NoDup l → wf s → (∀ c, c ∈ l → is_Some (record_layers s !! c)) →
  ∃ s' t,
    for_each l (λ conn, _clean_record_layer conn ;;
                        emit (RecordClose conn) ;;
                        emit (BackendClose conn)) s
    = (Return tt, s', t)
    ∧ wf s'
    ∧ (∀ c, record_layers s' !! c
            = if decide (c ∈ l) then None else record_layers s !! c)
    ∧ unfinished s' = unfinished s.
Proof.
  revert s. induction l as [|c l IH]; intros s Hnd Hs Hl.
  - exists s, []. split_and!; try done.
  - apply NoDup_cons in Hnd as [Hc Hnd].
    destruct (Hl c) as [conns Hconns]; [left|].
    destruct (clean_record_layer_registered s c conns Hs Hconns)
      as [Hrun Hwf].
    destruct (IH (torn_down c s) Hnd Hwf) as (s' & t & Hloop & Hs' & Hr & Hu).
    { intros c' Hc'. simpl. rewrite lookup_delete_ne by (by intros <-).
      apply Hl. by right. }
    eexists s', _. split_and!; try done.
    + rewrite for_each_cons, bind_assoc, (bind_returns _ _ _ _ _ _ Hrun).
      rewrite bind_assoc, bind_emit, bind_emit, Hloop. reflexivity.
    + intros c'. rewrite Hr. simpl.
      destruct (decide (c' = c)) as [->|Hne].
      * rewrite (decide_True (P := c ∈ c :: l)) by left.
        destruct (decide (c ∈ l)); [done|]. apply lookup_delete_eq.
      * rewrite lookup_delete_ne by done. destruct (decide (c' ∈ l)).
        -- by rewrite decide_True by (by right).
        -- rewrite decide_False; [done|]. by intros [?|?]%elem_of_cons.
Qed.

Lemma shutdown_registry s :
  wf s →
  outcome (shutdown s) = Return tt
  ∧ record_layers (final (shutdown s)) = ∅
  ∧ frontends (final (shutdown s)) = ∅
  ∧ unfinished (final (shutdown s)) = unfinished s.
Proof.
  intros Hs.
  destruct (shutdown_loop s (map_to_list (record_layers s)).*1)
    as (s' & t & Hloop & Hs' & Hr & Hu); try done.
  { apply NoDup_fst_map_to_list. }
  { intros c [[c' m] [-> Hm]]%list_elem_of_fmap.
    apply elem_of_map_to_list in Hm. by eexists. }
  assert (record_layers s' = ∅) as Hempty.
  { apply map_eq. intros c. rewrite Hr, lookup_empty.
    destruct (decide _) as [|Hn]; [done|].
    destruct (record_layers s !! c) as [m|] eqn:Hm; [|done].
    destruct Hn. apply list_elem_of_fmap. exists (c, m).
    split; [done|]. by apply elem_of_map_to_list. }
  assert (shutdown s = (Return tt, s', t ++ [ServerBackendClose])) as ->.
  { unfold shutdown. rewrite bind_get, (bind_returns _ _ _ _ _ _ Hloop).
    done. }
  split_and!; try done.
  apply map_eq. intros f. rewrite lookup_empty.
  destruct (frontends s' !! f) as [[i c]|] eqn:Hf; [|done].
  destruct (wf_backward s' Hs' _ _ _ Hf) as (m & Hm & _).
  simpl in Hm. by rewrite Hempty, lookup_empty in Hm.
Qed.

(** C1, as the code has it. Tearing down a registered record layer (on a
    critical exception of its receive, on the end of its stream, or when the
    server stops) leaves no entry of the registry for it or for the virtual
    connections it had: it is not a record layer of the registry any more,
    no frontend has it as owner, and its former frontends are in neither
    mapping. The pending-write set is not part of the teardown: it is after
    the teardown what it was before. *)
Theorem teardown_registry T s conn conns e :
  reachable T s →
  record_layers s !! conn = Some conns →
  _clean_record_layer conn s
  = (Return tt, torn_down conn s, FrontClose <$> (map_to_list conns).*2)
  ∧ final (_process_record_layer T conn (ReceiveRaises e) s)
    = torn_down conn s
  ∧ final (_process_record_layer T conn ReceiveNone s) = torn_down conn s
  ∧ record_layers (torn_down conn s) !! conn = None
  ∧ (∀ f i, frontends (torn_down conn s) !! f ≠ Some (i, conn))
  ∧ (∀ i f, conns !! i = Some f →
       frontends (torn_down conn s) !! f = None
       ∧ ∀ c m j, record_layers (torn_down conn s) !! c = Some m →
                  m !! j ≠ Some f)
  ∧ unfinished (torn_down conn s) = unfinished s
  ∧ outcome (shutdown s) = Return tt
  ∧ record_layers (final (shutdown s)) = ∅
  ∧ frontends (final (shutdown s)) = ∅
  ∧ unfinished (final (shutdown s)) = unfinished s.
Proof.
  intros Hs%reachable_wf Hc.
  destruct (clean_record_layer_registered s conn conns Hs Hc) as [Hrun Hwf].
  destruct (shutdown_registry s Hs) as (H1 & H2 & H3 & H4).
  split_and!; try done.
  - by rewrite (process_record_layer_raises_eq T s conn conns).
  - by rewrite (process_record_layer_none_eq T s conn conns).
  - simpl. apply lookup_delete_eq.
  - intros f i. apply torn_down_no_owner.
  - intros i f Hi.
    pose proof (torn_down_former conn s conns i f Hs Hc Hi) as Hnone.
    split; [done|]. intros c m j Hm Hj.
    pose proof (wf_forward _ Hwf _ _ _ _ Hm Hj). congruence.
Qed.

Lemma teardown_registry_witness :
  let conns : gmap Z nat := {[1 := 1%nat]} in
  let s := state_pending in
  _clean_record_layer 0%nat s
  = (Return tt, torn_down 0%nat s, FrontClose <$> (map_to_list conns).*2)
  ∧ final (_process_record_layer example_tunnel 0%nat
             (ReceiveRaises HashfailError) s)
    = torn_down 0%nat s
  ∧ final (_process_record_layer example_tunnel 0%nat ReceiveNone s)
    = torn_down 0%nat s
  ∧ record_layers (torn_down 0%nat s) !! 0%nat = None
  ∧ (∀ f i, frontends (torn_down 0%nat s) !! f ≠ Some (i, 0%nat))
  ∧ (∀ i f, conns !! i = Some f →
       frontends (torn_down 0%nat s) !! f = None
       ∧ ∀ c m j, record_layers (torn_down 0%nat s) !! c = Some m →
                  m !! j ≠ Some f)
  ∧ unfinished (torn_down 0%nat s) = unfinished s
  ∧ outcome (shutdown s) = Return tt
  ∧ record_layers (final (shutdown s)) = ∅
  ∧ frontends (final (shutdown s)) = ∅
  ∧ unfinished (final (shutdown s)) = unfinished s.
Proof.
  intros conns s.
  apply (teardown_registry example_tunnel s 0%nat conns HashfailError).
  - apply reachable_state_pending.
  - vm_compute. reflexivity.
Defined.

(** C1 as it is written does not hold for the pending-write set: with
    frontend 1 open as id 1 under record layer 0 and both of them waiting
    for a write, the teardown of record layer 0 takes both out of the
    registry and leaves both in the pending-write set. *)
Lemma teardown_leaves_pending :
  let s' := final (_process_record_layer example_tunnel 0%nat
                     (ReceiveRaises HashfailError) state_pending) in
  is_open state_pending 0%nat 1 1%nat
  ∧ record_layers s' !! 0%nat = None
  ∧ frontends s' !! 1%nat = None
  ∧ ¬ ((inl 0%nat ∉ unfinished s') ∧ (inr 1%nat ∉ unfinished s'))
  ∧ inl 0%nat ∈ wlist s'
  ∧ inr 1%nat ∈ wlist s'.
Proof.
  intros s'.
  assert (unfinished s' = {[inl 0%nat; inr 1%nat]}) as Hu
    by (vm_compute; reflexivity).
  split_and!.
  - exists {[1 := 1%nat]}. split; vm_compute; reflexivity.
  - vm_compute. reflexivity.
  - vm_compute. reflexivity.
  - intros [H _]. apply H. rewrite Hu. apply elem_of_union_l.
    by apply elem_of_singleton.
  - unfold wlist. rewrite elem_of_elements, Hu. apply elem_of_union_l.
    by apply elem_of_singleton.
  - unfold wlist. rewrite elem_of_elements, Hu. apply elem_of_union_r.
    by apply elem_of_singleton.
Qed.

(** ** SYN for an id that is open *)

Lemma bind_prepend {A B} (m m' : M A) (k : A → M B) s s' t :
  m s = prepend t (m' s') → bind m k s = prepend t (bind m' k s').
Proof.
  intros H. unfold bind. rewrite H.
  destruct (m' s') as [[[x|e] s1] t1]; simpl; [|done].
  destruct (k x s1) as [[r s2] t2]. unfold prepend. simpl.
  by rewrite app_assoc.
Qed.

(** C4. SYN (on a packet whose RST flag is not set, so that its SYN flag is
    looked at) for an id that is Open: the frontend that had the id is
    closed, not reset, and is out of the registry before anything else is
    done; from there on the packet is processed as a SYN for an Unopened id,
    which registers the new frontend when the factory gives one. So no two
    frontends are registered under one (record layer, id) pair, before the
    packet, after it, and in any state the server can reach. *)
Theorem syn_reused_id T s conn packet control conn_id payload a conns f0 :
  reachable T s →
  unpack_packet T packet = (control, conn_id, payload) →
  has_flag control (rst T) = false →
  has_flag control (syn T) = true →
  record_layers s !! conn = Some conns →
  conns !! conn_id = Some f0 →
  let s0 := closed f0 conn_id conn conns s in
  _process_packet T conn packet a s
  = prepend [FrontClose f0] (_process_packet T conn packet a s0)
  ∧ frontends s0 !! f0 = None
  ∧ is_unopened s0 conn conn_id
  ∧ process_syn T conn conn_id a s
    = prepend [FrontClose f0]
        (syn_unopened T conn conn_id a (delete conn_id conns) s0)
  ∧ match new_frontend a with
    | Available =>
        is_open (final (process_syn T conn conn_id a s)) conn conn_id
          (allocated s)
        ∧ allocated s ≠ f0
    | FrontendUnavailableError _ =>
        is_unopened (final (process_syn T conn conn_id a s)) conn conn_id
    end
  ∧ at_most_one s
  ∧ at_most_one (final (_process_packet T conn packet a s))
  ∧ (∀ s', reachable T s' → at_most_one s').
Proof.
  intros Hreach Hp Hrst Hsyn Hc Hi s0.
  pose proof (reachable_wf T s Hreach) as Hs.
  pose proof (wf_forward s Hs _ _ _ _ Hc Hi) as Hf.
  assert (record_layers s0 !! conn = Some (delete conn_id conns)) as Hc0.
  { simpl. by rewrite lookup_insert_eq. }
  assert (delete conn_id conns !! conn_id = None) as Hi0
    by apply lookup_delete_eq.
  pose proof (process_syn_open T conn conn_id a s conns f0 Hs Hc Hi) as Hopen.
  fold s0 in Hopen.
  split_and!.
  - unfold _process_packet. rewrite Hp. run.
    apply bind_prepend.
    by rewrite Hopen, (process_syn_unopened T conn conn_id a s0 _ Hc0 Hi0).
  - simpl. apply lookup_delete_eq.
  - by exists (delete conn_id conns).
  - done.
  - rewrite Hopen, final_prepend. unfold syn_unopened.
    destruct (new_frontend a) as [|m]; simpl.
    + split.
      * exists (<[conn_id := allocated s]> (delete conn_id conns)).
        unfold final. simpl. by rewrite !lookup_insert_eq.
      * pose proof (wf_frontends_allocated s Hs f0 (mk_is_Some _ _ Hf)). lia.
    + exists (delete conn_id conns). unfold final. simpl.
      by destruct (pending_registry (packet_sent a) (inl conn) s0) as (-> & _).
  - by apply wf_at_most_one.
  - by apply wf_at_most_one, (reachable_wf T), reachable_packet.
  - intros s' Hs'. by apply wf_at_most_one, (reachable_wf T).
Qed.

Lemma syn_reused_id_witness :
  let syn1 := example_packet 1 1 [] in
  let conns : gmap Z nat := {[1 := 1%nat]} in
  let s := state_open in
  let s0 := closed 1%nat 1 0%nat conns s in
  _process_packet example_tunnel 0%nat syn1 answers_ok s
  = prepend [FrontClose 1%nat]
      (_process_packet example_tunnel 0%nat syn1 answers_ok s0)
  ∧ frontends s0 !! 1%nat = None
  ∧ is_unopened s0 0%nat 1
  ∧ process_syn example_tunnel 0%nat 1 answers_ok s
    = prepend [FrontClose 1%nat]
        (syn_unopened example_tunnel 0%nat 1 answers_ok (delete 1 conns) s0)
  ∧ match new_frontend answers_ok with
    | Available =>
        is_open (final (process_syn example_tunnel 0%nat 1 answers_ok s))
          0%nat 1 (allocated s)
        ∧ allocated s ≠ 1%nat
    | FrontendUnavailableError _ =>
        is_unopened (final (process_syn example_tunnel 0%nat 1 answers_ok s))
          0%nat 1
    end
  ∧ at_most_one s
  ∧ at_most_one (final (_process_packet example_tunnel 0%nat syn1 answers_ok s))
  ∧ (∀ s', reachable example_tunnel s' → at_most_one s').
Proof.
  intros syn1 conns s.
  apply (syn_reused_id example_tunnel s 0%nat syn1 1 1 [] answers_ok conns
           1%nat).
  - apply reachable_state_open.
  - reflexivity.
  - reflexivity.
  - reflexivity.
  - vm_compute. reflexivity.
  - reflexivity.
Defined.

(** * Further properties of the orchestrator *)

Lemma reachable_state_two : reachable example_tunnel state_two.
Proof. apply reachable_turn, reachable_state_open. Qed.

(** X1. Between any two turns of the loop, also after a turn that an
    exception cut short, the two mappings of the registry say the same: a
    frontend is a key of [self.frontends] with value [(conn_id, conn)]
    exactly when it is the value of [conn_id] in [self.record_layers[conn]]. *)
Theorem registry_invariant T s f conn_id conn :
  reachable T s →
  frontends s !! f = Some (conn_id, conn) ↔ is_open s conn conn_id f.
Proof.
  intros Hs%reachable_wf. split.
  - by apply wf_backward.
  - by apply wf_open_owner.
Qed.

Lemma registry_invariant_witness :
  frontends state_two !! 3%nat = Some (1, 2%nat)
  ↔ is_open state_two 2%nat 1 3%nat.
Proof.
  apply (registry_invariant example_tunnel state_two 3%nat 1 2%nat).
  apply reachable_state_two.
Defined.

(** ** A packet stays with its record layer *)

Lemma same_elsewhere_refl conn s : same_elsewhere conn s s.
Proof. by intros c. Qed.

Lemma same_elsewhere_trans conn s1 s2 s3 :
  same_elsewhere conn s1 s2 → same_elsewhere conn s2 s3 →
  same_elsewhere conn s1 s3.
Proof. intros H12 H23 c Hc. by rewrite H23, H12. Qed.

Lemma same_elsewhere_closed conn s f i conns :
  same_elsewhere conn s (closed f i conn conns s).
Proof. intros c Hc. simpl. by rewrite lookup_insert_ne. Qed.

Lemma same_elsewhere_opened conn s i conns :
  same_elsewhere conn s (opened i conn conns s).
Proof. intros c Hc. simpl. by rewrite lookup_insert_ne. Qed.

Lemma same_elsewhere_pending conn s sent x :
  same_elsewhere conn s (pending sent x s).
Proof. intros c Hc. by destruct sent. Qed.

(** [self._close_frontend(conns[conn_id], reset)] keeps the registry
    invariant and changes no other record layer than [conn]. *)
Lemma close_by_id_isolated conn conn_id reset s0 :
  preserves (λ s, wf s ∧ same_elsewhere conn s0 s)
    (f <- conns_getitem conn conn_id ;; _close_frontend f reset).
Proof.
  intros s [Hs Hsame].
  destruct (record_layers s !! conn) as [conns|] eqn:Hc.
  2: { unfold conns_getitem. rewrite !bind_assoc, bind_get, bind_assoc, Hc.
       done. }
  rewrite (conns_getitem_eq _ _ _ _ conns Hc).
  destruct (conns !! conn_id) as [f|] eqn:Hi; [|done].
  pose proof (wf_forward s Hs _ _ _ _ Hc Hi) as Hf.
  rewrite (close_frontend_registered s f reset conn_id conn conns) by eauto.
  split; [by apply wf_closed|].
  eapply same_elsewhere_trans; [done|apply same_elsewhere_closed].
Qed.

Lemma process_syn_isolated T conn conn_id a s0 :
  preserves (λ s, wf s ∧ same_elsewhere conn s0 s)
    (process_syn T conn conn_id a).
Proof.
  intros s [Hs Hsame]. split; [by apply process_syn_preserves|].
  eapply same_elsewhere_trans; [done|].
  destruct (record_layers s !! conn) as [conns|] eqn:Hc.
  2: { rewrite process_syn_unregistered by done. apply same_elsewhere_refl. }
  assert (∀ s1 conns1, same_elsewhere conn s s1 →
            same_elsewhere conn s
              (final (syn_unopened T conn conn_id a conns1 s1))) as Hun.
  { intros s1 conns1 H1. eapply same_elsewhere_trans; [done|].
    unfold syn_unopened. destruct (new_frontend a).
    - apply same_elsewhere_opened.
    - apply same_elsewhere_pending. }
  destruct (conns !! conn_id) as [f0|] eqn:Hi.
  - rewrite (process_syn_open _ _ _ _ _ conns f0), final_prepend by done.
    apply Hun, same_elsewhere_closed.
  - rewrite (process_syn_unopened _ _ _ _ _ conns) by done.
    apply Hun, same_elsewhere_refl.
Qed.

Lemma process_packet_isolated T conn packet a s0 :
  preserves (λ s, wf s ∧ same_elsewhere conn s0 s)
    (_process_packet T conn packet a).
Proof.
  set (I := λ s, wf s ∧ same_elsewhere conn s0 s).
  assert (∀ c, preserves I (unfinished_add c)) as Hadd.
  { intros c s [Hs Hsame]. split; [by apply unfinished_add_preserves|done]. }
  unfold _process_packet. destruct (unpack_packet T packet) as [[control i] p].
  apply preserves_bind; [apply preserves_get|]. intros s1.
  apply preserves_bind; [apply preserves_getitem|]. intros _.
  destruct (has_flag control (rst T)); [apply close_by_id_isolated|].
  apply preserves_bind.
  { destruct (has_flag control (syn T));
      [apply process_syn_isolated|apply preserves_ret]. }
  intros [|]; [|apply preserves_ret].
  apply preserves_bind.
  - destruct (has_flag control (dat T)); [|apply preserves_ret].
    apply preserves_bind; [apply conns_getitem_preserves|]. intros f.
    apply preserves_bind; [apply preserves_emit|]. intros _.
    destruct (front_sent a); [apply preserves_ret|].
    apply preserves_bind; [apply conns_getitem_preserves|]. intros f'.
    apply Hadd.
  - intros _. destruct (has_flag control (fin T)); [|apply preserves_ret].
    apply close_by_id_isolated.
Qed.

(** With the registry invariant on both sides, the frontends of the record
    layers that did not change did not change either. *)
Lemma same_elsewhere_frontends conn s s' f i c :
  wf s → wf s' → same_elsewhere conn s s' → c ≠ conn →
  frontends s' !! f = Some (i, c) ↔ frontends s !! f = Some (i, c).
Proof.
  intros Hs Hs' Hsame Hne. split; intros Hf.
  - destruct (wf_backward s' Hs' _ _ _ Hf) as (m & Hm & Hi).
    rewrite Hsame in Hm by done. by apply (wf_forward s Hs c m).
  - destruct (wf_backward s Hs _ _ _ Hf) as (m & Hm & Hi).
    rewrite <- Hsame in Hm by done. by apply (wf_forward s' Hs' c m).
Qed.

(** X2. Whatever a packet received on one record layer carries, and whether
    its processing returns or raises, the other record layers keep their
    virtual connections: their dictionaries and the entries of their
    frontends are after the packet what they were before. *)
Theorem packet_stays_with_its_record_layer T s conn packet a c f i :
  reachable T s →
  c ≠ conn →
  let s' := final (_process_packet T conn packet a s) in
  record_layers s' !! c = record_layers s !! c
  ∧ (frontends s' !! f = Some (i, c) ↔ frontends s !! f = Some (i, c)).
Proof.
  intros Hs%reachable_wf Hne s'.
  destruct (process_packet_isolated T conn packet a s s) as [Hs' Hsame].
  { split; [done|apply same_elsewhere_refl]. }
  split; [by apply Hsame|]. by apply (same_elsewhere_frontends conn).
Qed.

Lemma packet_stays_with_its_record_layer_witness :
  let s' := final (_process_packet example_tunnel 0%nat
                     (example_packet 15 1 hi) answers_ok state_two) in
  record_layers s' !! 2%nat = record_layers state_two !! 2%nat
  ∧ (frontends s' !! 3%nat = Some (1, 2%nat)
     ↔ frontends state_two !! 3%nat = Some (1, 2%nat)).
Proof.
  apply (packet_stays_with_its_record_layer example_tunnel state_two 0%nat
           (example_packet 15 1 hi) answers_ok 2%nat 3%nat 1).
  - apply reachable_state_two.
  - discriminate.
Defined.

(** X3. Accepting a connection registers a record layer that was not
    registered before, with no virtual connection; the record layers and
    frontends that were registered and the pending-write set are as they
    were. *)
Theorem accept_registers_new_record_layer T s :
  reachable T s →
  let conn := allocated s in
  _process_backend s
  = (Return tt, accepted s, [Log INFO (Msg "connected") "record" (Some conn)])
  ∧ record_layers s !! conn = None
  ∧ record_layers (accepted s) !! conn = Some ∅
  ∧ same_elsewhere conn s (accepted s)
  ∧ frontends (accepted s) = frontends s
  ∧ unfinished (accepted s) = unfinished s
  ∧ (∀ i f, ¬ is_open (accepted s) conn i f).
Proof.
  intros Hs%reachable_wf conn. split_and!.
  - apply process_backend_eq.
  - destruct (record_layers s !! conn) eqn:E; [|done].
    pose proof (wf_record_layers_allocated s Hs conn (mk_is_Some _ _ E)).
    unfold conn in *. lia.
  - simpl. apply lookup_insert_eq.
  - intros c Hc. simpl. by rewrite lookup_insert_ne.
  - done.
  - done.
  - intros i f (m & Hm & Hi). simpl in Hm. rewrite lookup_insert_eq in Hm.
    injection Hm as <-. by rewrite lookup_empty in Hi.
Qed.

Lemma accept_registers_new_record_layer_witness :
  let s := state_open in
  let conn := allocated s in
  _process_backend s
  = (Return tt, accepted s, [Log INFO (Msg "connected") "record" (Some conn)])
  ∧ record_layers s !! conn = None
  ∧ record_layers (accepted s) !! conn = Some ∅
  ∧ same_elsewhere conn s (accepted s)
  ∧ frontends (accepted s) = frontends s
  ∧ unfinished (accepted s) = unfinished s
  ∧ (∀ i f, ¬ is_open (accepted s) conn i f).
Proof.
  apply (accept_registers_new_record_layer example_tunnel state_open).
  apply reachable_state_open.
Defined.

(** ** What a packet does, flag by flag *)

(** The DAT part of [_process_packet], for an Open id. *)
Lemma dat_part_eq conn conn_id payload a s conns f :
  record_layers s !! conn = Some conns → conns !! conn_id = Some f →
  (f <- conns_getitem conn conn_id ;;
   emit (FrontSend f payload) ;;
   if front_sent a then ret tt
   else f <- conns_getitem conn conn_id ;; unfinished_add (inr f)) s
  = (Return tt, pending (front_sent a) (inr f) s, [FrontSend f payload]).
Proof.
  intros Hc Hi. rewrite (conns_getitem_eq _ _ _ _ conns Hc), Hi, bind_emit.
  destruct (front_sent a); [done|].
  by rewrite (conns_getitem_eq _ _ _ _ conns Hc), Hi.
Qed.

Lemma dat_flag_eq T control conn conn_id payload a s conns f :
  record_layers s !! conn = Some conns → conns !! conn_id = Some f →
  (if has_flag control (dat T)
   then f <- conns_getitem conn conn_id ;;
        emit (FrontSend f payload) ;;
        if front_sent a then ret tt
        else f <- conns_getitem conn conn_id ;; unfinished_add (inr f)
   else ret tt) s
  = (Return tt, delivered (has_flag control (dat T)) (front_sent a) f s,
     delivery (has_flag control (dat T)) f payload).
Proof.
  intros Hc Hi. destruct (has_flag control (dat T)); [|done].
  by apply (dat_part_eq conn conn_id payload a s conns).
Qed.

Lemma delivered_registry dat_set sent f s :
  record_layers (delivered dat_set sent f s) = record_layers s
  ∧ frontends (delivered dat_set sent f s) = frontends s
  ∧ allocated (delivered dat_set sent f s) = allocated s.
Proof. destruct dat_set; [apply pending_registry|done]. Qed.

(** X4. A packet with the DAT flag alone for an Open id hands its payload to
    the frontend of that id, once, and does nothing else: the registry is as
    before, and the frontend joins the pending-write set when its [send] did
    not take everything. *)
Theorem dat_delivers_payload T s conn packet control conn_id payload a conns f :
  unpack_packet T packet = (control, conn_id, payload) →
  has_flag control (rst T) = false →
  has_flag control (syn T) = false →
  has_flag control (dat T) = true →
  has_flag control (fin T) = false →
  record_layers s !! conn = Some conns →
  conns !! conn_id = Some f →
  _process_packet T conn packet a s
  = (Return tt, pending (front_sent a) (inr f) s, [FrontSend f payload])
  ∧ record_layers (pending (front_sent a) (inr f) s) = record_layers s
  ∧ frontends (pending (front_sent a) (inr f) s) = frontends s.
Proof.
  intros Hp Hrst Hsyn Hdat Hfin Hc Hi.
  destruct (pending_registry (front_sent a) (inr f) s) as (Hr & Hf & _).
  split_and!; [|done..].
  unfold _process_packet. rewrite Hp. run.
  rewrite (bind_returns _ _ _ _ _ _
             (dat_part_eq conn conn_id payload a s conns f Hc Hi)).
  by run.
Qed.

Lemma dat_delivers_payload_witness :
  let a := PacketAnswers Available false true in
  _process_packet example_tunnel 0%nat (example_packet 2 1 hi) a state_open
  = (Return tt, pending (front_sent a) (inr 1%nat) state_open,
     [FrontSend 1%nat hi])
  ∧ record_layers (pending (front_sent a) (inr 1%nat) state_open)
    = record_layers state_open
  ∧ frontends (pending (front_sent a) (inr 1%nat) state_open)
    = frontends state_open.
Proof.
  intros a.
  apply (dat_delivers_payload example_tunnel state_open 0%nat
           (example_packet 2 1 hi) 2 1 hi a {[1 := 1%nat]} 1%nat);
    reflexivity.
Defined.

(** X5. FIN for an Open id closes its frontend (no reset) and takes it out of
    the registry; a payload that comes with the FIN (DAT flag) is handed to
    the frontend first. A frontend that did not take all of that payload is
    left in the pending-write set although it is closed. *)
Theorem fin_closes_after_data T s conn packet control conn_id payload a
    conns f :
  reachable T s →
  unpack_packet T packet = (control, conn_id, payload) →
  has_flag control (rst T) = false →
  has_flag control (syn T) = false →
  has_flag control (fin T) = true →
  record_layers s !! conn = Some conns →
  conns !! conn_id = Some f →
  let dat_set := has_flag control (dat T) in
  let s' := closed f conn_id conn conns
              (delivered dat_set (front_sent a) f s) in
  _process_packet T conn packet a s
  = (Return tt, s', delivery dat_set f payload ++ [FrontClose f])
  ∧ is_unopened s' conn conn_id
  ∧ frontends s' !! f = None
  ∧ (dat_set = true → front_sent a = false → inr f ∈ unfinished s').
Proof.
  intros Hs%reachable_wf Hp Hrst Hsyn Hfin Hc Hi dat_set s'.
  pose proof (wf_forward s Hs _ _ _ _ Hc Hi) as Hf.
  destruct (delivered_registry dat_set (front_sent a) f s) as (Hr' & Hf' & _).
  split_and!.
  - unfold _process_packet. rewrite Hp. run.
    rewrite (bind_returns _ _ _ _ _ _
               (dat_flag_eq T control conn conn_id payload a s conns f Hc Hi)).
    fold dat_set. rewrite ?Hfin.
    assert (record_layers (delivered dat_set (front_sent a) f s) !! conn
            = Some conns) as Hc' by (by rewrite Hr').
    rewrite (conns_getitem_eq _ _ _ _ conns Hc'), Hi.
    rewrite (close_frontend_registered _ f false conn_id conn conns);
      rewrite ?Hf'; eauto.
  - exists (delete conn_id conns). simpl.
    by rewrite lookup_insert_eq, lookup_delete_eq.
  - simpl. apply lookup_delete_eq.
  - intros Hdat Hsent. subst s'. simpl. unfold delivered, pending.
    rewrite Hdat, Hsent. simpl. apply elem_of_union_l.
    by apply elem_of_singleton.
Qed.

Lemma fin_closes_after_data_witness :
  let a := PacketAnswers Available false true in
  let dat_set := has_flag 6 (dat example_tunnel) in
  let s' := closed 1%nat 1 0%nat {[1 := 1%nat]}
              (delivered dat_set (front_sent a) 1%nat state_open) in
  _process_packet example_tunnel 0%nat (example_packet 6 1 hi) a state_open
  = (Return tt, s', delivery dat_set 1%nat hi ++ [FrontClose 1%nat])
  ∧ is_unopened s' 0%nat 1
  ∧ frontends s' !! 1%nat = None
  ∧ (dat_set = true → front_sent a = false → inr 1%nat ∈ unfinished s').
Proof.
  intros a.
  apply (fin_closes_after_data example_tunnel state_open 0%nat
           (example_packet 6 1 hi) 6 1 hi a {[1 := 1%nat]} 1%nat);
    try reflexivity.
  apply reachable_state_open.
Defined.

Lemma opened_new_open conn_id conn conns s :
  record_layers (opened conn_id conn conns s) !! conn
  = Some (<[conn_id := allocated s]> conns)
  ∧ <[conn_id := allocated s]> conns !! conn_id = Some (allocated s)
  ∧ frontends (opened conn_id conn conns s) !! allocated s
    = Some (conn_id, conn).
Proof. simpl. by rewrite !lookup_insert_eq. Qed.

(** The SYN and DAT parts of [_process_packet] for an Unopened id, when the
    factory gives a frontend; [k] is the FIN part. *)
Lemma syn_dat_unopened_eq T s conn control conn_id payload a conns
    (k : M unit) :
  record_layers s !! conn = Some conns →
  conns !! conn_id = None →
  new_frontend a = Available →
  let f := allocated s in
  let dat_set := has_flag control (dat T) in
  (go_on <- process_syn T conn conn_id a ;;
   if go_on : bool then
     (if has_flag control (dat T) then
        f <- conns_getitem conn conn_id ;;
        emit (FrontSend f payload) ;;
        if front_sent a then ret tt
        else f <- conns_getitem conn conn_id ;; unfinished_add (inr f)
      else ret tt) ;;
     k
   else ret tt) s
  = prepend (delivery dat_set f payload)
      (k (delivered dat_set (front_sent a) f (opened conn_id conn conns s))).
Proof.
  intros Hc Hi Ha f dat_set.
  pose proof (process_syn_unopened T conn conn_id a s conns Hc Hi) as Hrun.
  unfold syn_unopened in Hrun. rewrite Ha in Hrun.
  rewrite (bind_returns _ _ _ _ _ _ Hrun), prepend_nil.
  destruct (opened_new_open conn_id conn conns s) as (Hc1 & Hi1 & _).
  by rewrite (bind_returns _ _ _ _ _ _
                (dat_flag_eq T control conn conn_id payload a _ _ _ Hc1 Hi1)).
Qed.

(** X6. SYN for an Unopened id, when the factory gives a frontend, registers
    that new frontend under the id in both mappings; a payload that comes
    with the SYN (DAT flag) goes to the new frontend, and nothing else is
    called. *)
Theorem syn_opens_with_first_data T s conn packet control conn_id payload a
    conns :
  unpack_packet T packet = (control, conn_id, payload) →
  has_flag control (rst T) = false →
  has_flag control (syn T) = true →
  has_flag control (fin T) = false →
  record_layers s !! conn = Some conns →
  conns !! conn_id = None →
  new_frontend a = Available →
  let f := allocated s in
  let dat_set := has_flag control (dat T) in
  let s' := delivered dat_set (front_sent a) f (opened conn_id conn conns s) in
  _process_packet T conn packet a s
  = (Return tt, s', delivery dat_set f payload)
  ∧ is_open s' conn conn_id f
  ∧ frontends s' !! f = Some (conn_id, conn)
  ∧ same_elsewhere conn s s'.
Proof.
  intros Hp Hrst Hsyn Hfin Hc Hi Ha f dat_set s'.
  destruct (opened_new_open conn_id conn conns s) as (Hc1 & Hi1 & Hf1).
  destruct (delivered_registry dat_set (front_sent a) f
              (opened conn_id conn conns s)) as (Hr' & Hf' & _).
  split_and!.
  - unfold _process_packet. rewrite Hp. run. cbv beta iota.
    rewrite (syn_dat_unopened_eq T s conn control conn_id payload a
               conns (ret tt)) by done.
    unfold ret, prepend. simpl. by rewrite app_nil_r.
  - exists (<[conn_id := f]> conns). subst s'. by rewrite Hr'.
  - subst s'. by rewrite Hf'.
  - intros c Hne. subst s'. rewrite Hr'. simpl. by rewrite lookup_insert_ne.
Qed.

Lemma syn_opens_with_first_data_witness :
  let f := allocated state_open in
  let dat_set := has_flag 3 (dat example_tunnel) in
  let s' := delivered dat_set (front_sent answers_ok) f
              (opened 2 0%nat {[1 := 1%nat]} state_open) in
  _process_packet example_tunnel 0%nat (example_packet 3 2 hi) answers_ok
    state_open
  = (Return tt, s', delivery dat_set f hi)
  ∧ is_open s' 0%nat 2 f
  ∧ frontends s' !! f = Some (2, 0%nat)
  ∧ same_elsewhere 0%nat state_open s'.
Proof.
  apply (syn_opens_with_first_data example_tunnel state_open 0%nat
           (example_packet 3 2 hi) 3 2 hi answers_ok {[1 := 1%nat]});
    reflexivity.
Defined.

(** X7. A packet with SYN and FIN (and no RST) for an Unopened id opens and
    closes in one go: the new frontend gets the payload if there is one, is
    closed, and the two mappings of the registry are what they were before
    the packet. *)
Theorem syn_fin_leaves_registry T s conn packet control conn_id payload a
    conns :
  reachable T s →
  unpack_packet T packet = (control, conn_id, payload) →
  has_flag control (rst T) = false →
  has_flag control (syn T) = true →
  has_flag control (fin T) = true →
  record_layers s !! conn = Some conns →
  conns !! conn_id = None →
  new_frontend a = Available →
  let f := allocated s in
  let dat_set := has_flag control (dat T) in
  let r := _process_packet T conn packet a s in
  outcome r = Return tt
  ∧ trace r = delivery dat_set f payload ++ [FrontClose f]
  ∧ record_layers (final r) = record_layers s
  ∧ frontends (final r) = frontends s
  ∧ allocated (final r) = S (allocated s).
Proof.
  intros Hs%reachable_wf Hp Hrst Hsyn Hfin Hc Hi Ha f dat_set r.
  destruct (opened_new_open conn_id conn conns s) as (Hc1 & Hi1 & Hf1).
  set (s1 := delivered dat_set (front_sent a) f (opened conn_id conn conns s)).
  destruct (delivered_registry dat_set (front_sent a) f
              (opened conn_id conn conns s)) as (Hr' & Hf' & Ha').
  assert (frontends s !! f = None) as Hfresh.
  { destruct (frontends s !! f) eqn:E; [|done].
    pose proof (wf_frontends_allocated s Hs f (mk_is_Some _ _ E)).
    unfold f in *. lia. }
  assert (r = (Return tt,
               closed f conn_id conn (<[conn_id := f]> conns) s1,
               delivery dat_set f payload ++ [FrontClose f])) as ->.
  { unfold r, _process_packet. rewrite Hp. run. cbv beta iota.
    rewrite (syn_dat_unopened_eq T s conn control conn_id payload a
               conns
               (f <- conns_getitem conn conn_id ;; _close_frontend f false))
      by done.
    fold f dat_set s1.
    assert (record_layers s1 !! conn = Some (<[conn_id := f]> conns)) as Hc2
      by (unfold s1; by rewrite Hr').
    fold f in Hi1. rewrite (conns_getitem_eq _ _ _ _ _ Hc2), Hi1.
    rewrite (close_frontend_registered s1 f false conn_id conn
               (<[conn_id := f]> conns)); [done| |done|by eexists].
    unfold s1. by rewrite Hf'. }
  unfold outcome, trace, final. simpl. split_and!; try done.
  - unfold s1. rewrite Hr'. simpl.
    rewrite insert_insert_eq, delete_insert_id by done. by apply insert_id.
  - unfold s1. rewrite Hf'. simpl. by apply delete_insert_id.
Qed.

Lemma syn_fin_leaves_registry_witness :
  let f := allocated state_open in
  let dat_set := has_flag 7 (dat example_tunnel) in
  let r := _process_packet example_tunnel 0%nat (example_packet 7 2 hi)
             answers_ok state_open in
  outcome r = Return tt
  ∧ trace r = delivery dat_set f hi ++ [FrontClose f]
  ∧ record_layers (final r) = record_layers state_open
  ∧ frontends (final r) = frontends state_open
  ∧ allocated (final r) = S (allocated state_open).
Proof.
  apply (syn_fin_leaves_registry example_tunnel state_open 0%nat
           (example_packet 7 2 hi) 7 2 hi answers_ok {[1 := 1%nat]});
    try reflexivity.
  apply reachable_state_open.
Defined.

(** X8. A packet with none of the four flags does nothing at all on a
    registered record layer: no call, no change, no error, whether its id is
    open or not. *)
Theorem no_flag_no_effect T s conn packet control conn_id payload a conns :
  unpack_packet T packet = (control, conn_id, payload) →
  has_flag control (rst T) = false →
  has_flag control (syn T) = false →
  has_flag control (dat T) = false →
  has_flag control (fin T) = false →
  record_layers s !! conn = Some conns →
  _process_packet T conn packet a s = (Return tt, s, []).
Proof.
  intros Hp Hrst Hsyn Hdat Hfin Hc.
  unfold _process_packet. rewrite Hp. by run.
Qed.

Lemma no_flag_no_effect_witness :
  _process_packet example_tunnel 0%nat (example_packet 0 7 hi) answers_ok
    state_open
  = (Return tt, state_open, []).
Proof.
  apply (no_flag_no_effect example_tunnel state_open 0%nat
           (example_packet 0 7 hi) 0 7 hi answers_ok {[1 := 1%nat]});
    reflexivity.
Defined.

(** ** Reading from a frontend *)

Lemma nonzero_true z : z ≠ 0 → negb (z =? 0) = true.
Proof. intros Hz. by apply negb_true_iff, Z.eqb_neq. Qed.

(** X9. What a frontend gives is forwarded as it is: bytes read from a
    registered frontend go out in one packet on the record layer that owns
    it, with the DAT flag and its id, and the frontend stays open; an empty
    read sends nothing and changes nothing (it is not the end of the
    stream). The record layer joins the pending-write set when the packet
    did not go out at once. *)
Theorem frontend_data_forwarded T s f conn conn_id b data sent :
  dat T ≠ 0 →
  has_flag (dat T) (rst T) = false →
  has_flag (dat T) (fin T) = false →
  frontends s !! f = Some (conn_id, conn) →
  _process_frontend T f (RecvBytes (b :: data)) sent s
  = (Return tt, pending sent (inl conn) s,
     [SendPacket conn (pack_header T (dat T) conn_id ++ b :: data)])
  ∧ frontends (pending sent (inl conn) s) = frontends s
  ∧ record_layers (pending sent (inl conn) s) = record_layers s
  ∧ _process_frontend T f (RecvBytes []) sent s = (Return tt, s, []).
Proof.
  intros Hdat Hrst Hfin Hf.
  destruct (pending_registry sent (inl conn) s) as (Hr' & Hf' & _).
  split_and!; [|done..].
  unfold _process_frontend. rewrite bind_ret. simpl.
  rewrite (nonzero_true _ Hdat). run. rewrite bind_send_packet.
  run. by rewrite ?Hrst, ?Hfin.
Qed.

Lemma frontend_data_forwarded_witness :
  _process_frontend example_tunnel 1%nat (RecvBytes (Byte.x68 :: [Byte.x69]))
    false state_open
  = (Return tt, pending false (inl 0%nat) state_open,
     [SendPacket 0%nat
        (pack_header example_tunnel (dat example_tunnel) 1
         ++ Byte.x68 :: [Byte.x69])])
  ∧ frontends (pending false (inl 0%nat) state_open) = frontends state_open
  ∧ record_layers (pending false (inl 0%nat) state_open)
    = record_layers state_open
  ∧ _process_frontend example_tunnel 1%nat (RecvBytes []) false state_open
    = (Return tt, state_open, []).
Proof.
  apply (frontend_data_forwarded example_tunnel state_open 1%nat 0%nat 1
           Byte.x68 [Byte.x69] false); try reflexivity.
  discriminate.
Defined.

(** X10. A frontend that is not in the registry (one that a packet closed
    earlier in the same turn, say) and is read all the same: unless the read
    is empty, [_process_frontend] raises a lookup error, and it does so
    before anything is sent, logged or changed. *)
Theorem frontend_not_registered T s f r sent :
  dat T ≠ 0 →
  fin T ≠ 0 →
  frontends s !! f = None →
  r ≠ RecvBytes [] →
  _process_frontend T f r sent s = (Raise KeyError, s, []).
Proof.
  intros Hdat Hfin Hf Hr. unfold _process_frontend.
  destruct r as [str| |[|b data]]; try done.
  - rewrite bind_assoc. by run.
  - rewrite bind_ret. simpl. rewrite (nonzero_true _ Hfin). by run.
  - rewrite bind_ret. simpl. rewrite (nonzero_true _ Hdat). by run.
Qed.

Lemma frontend_not_registered_witness :
  _process_frontend example_tunnel 5%nat RecvNone true state_open
  = (Raise KeyError, state_open, []).
Proof.
  apply (frontend_not_registered example_tunnel state_open 5%nat RecvNone
           true); try discriminate.
  reflexivity.
Defined.

(** X11. Closing a frontend twice: the second [_close_frontend] calls the
    frontend again ([close] or [reset]) and then raises a lookup error; the
    registry is what the first close left. *)
Theorem close_frontend_twice T s conn conn_id conns f reset reset' :
  reachable T s →
  record_layers s !! conn = Some conns →
  conns !! conn_id = Some f →
  (_close_frontend f reset ;; _close_frontend f reset') s
  = (Raise KeyError, closed f conn_id conn conns s,
     [if reset then FrontReset f else FrontClose f;
      if reset' then FrontReset f else FrontClose f]).
Proof.
  intros Hs%reachable_wf Hc Hi.
  pose proof (wf_forward s Hs _ _ _ _ Hc Hi) as Hf.
  rewrite (bind_returns _ _ _ _ _ _
             (close_frontend_registered s f reset conn_id conn conns Hf Hc
                (mk_is_Some _ _ Hi))).
  rewrite close_frontend_unregistered; [done|].
  simpl. apply lookup_delete_eq.
Qed.

Lemma close_frontend_twice_witness :
  (_close_frontend 1%nat false ;; _close_frontend 1%nat true) state_open
  = (Raise KeyError, closed 1%nat 1 0%nat {[1 := 1%nat]} state_open,
     [FrontClose 1%nat; FrontReset 1%nat]).
Proof.
  apply (close_frontend_twice example_tunnel state_open 0%nat 1
           {[1 := 1%nat]} 1%nat false true); try reflexivity.
  apply reachable_state_open.
Defined.

(** ** End of a stream, and the loop of [run] *)

(** X12. When the receive of a registered record layer gives [None], the
    record layer is torn down as for a critical exception, and besides its
    own [close] is called before the one of its transport; on a critical
    exception [conn.close()] is not called. An empty list of packets is not
    the end of the stream: nothing is called and nothing changes. *)
Theorem clean_end_of_stream T s conn conns e :
  reachable T s →
  record_layers s !! conn = Some conns →
  _process_record_layer T conn ReceiveNone s
  = (Return tt, torn_down conn s,
     (FrontClose <$> (map_to_list conns).*2)
     ++ [RecordClose conn; BackendClose conn;
         Log INFO (Msg "disconnected") "record" (Some conn)])
  ∧ (RecordClose conn
     ∉ trace (_process_record_layer T conn (ReceiveRaises e) s))
  ∧ _process_record_layer T conn (ReceivePackets []) s = (Return tt, s, []).
Proof.
  intros Hs%reachable_wf Hc. split_and!.
  - by apply process_record_layer_none_eq.
  - rewrite (process_record_layer_raises_eq T s conn conns e Hs Hc).
    unfold trace. simpl. intros [H|H]%elem_of_app.
    + by apply list_elem_of_fmap in H as (f & ? & _).
    + apply elem_of_cons in H as [?|H]; [done|].
      apply elem_of_cons in H as [?|H]; [done|]. by apply elem_of_nil in H.
  - done.
Qed.

Lemma clean_end_of_stream_witness :
  let conns : gmap Z nat := {[1 := 1%nat; 2 := 2%nat]} in
  _process_record_layer example_tunnel 0%nat ReceiveNone state_open2
  = (Return tt, torn_down 0%nat state_open2,
     (FrontClose <$> (map_to_list conns).*2)
     ++ [RecordClose 0%nat; BackendClose 0%nat;
         Log INFO (Msg "disconnected") "record" (Some 0%nat)])
  ∧ (RecordClose 0%nat
     ∉ trace (_process_record_layer example_tunnel 0%nat
                (ReceiveRaises InvalidHeaderError) state_open2))
  ∧ _process_record_layer example_tunnel 0%nat (ReceivePackets []) state_open2
    = (Return tt, state_open2, []).
Proof.
  intros conns.
  apply (clean_end_of_stream example_tunnel state_open2 0%nat conns
           InvalidHeaderError).
  - apply reachable_state_open2.
  - vm_compute. reflexivity.
Defined.





(** The loop of [run] after the last turn, with the calls it makes. *)
Lemma shutdown_loop_calls s (l : list nat) :
  NoDup l → wf s → (∀ c, c ∈ l → is_Some (record_layers s !! c)) →
  ∃ s' t,
    for_each l (λ conn, _clean_record_layer conn ;;
                        emit (RecordClose conn) ;;
                        emit (BackendClose conn)) s
    = (Return tt, s', t)
    ∧ (∀ c conns, c ∈ l → record_layers s !! c = Some conns →
         RecordClose c ∈ t ∧ BackendClose c ∈ t
         ∧ ∀ i f, conns !! i = Some f → FrontClose f ∈ t)
    ∧ (∀ f, FrontReset f ∉ t).
Proof.
  revert s. induction l as [|c l IH]; intros s Hnd Hs Hl.
  - exists s, []. split_and!; [done| |].
    + intros c conns Hc. by apply elem_of_nil in Hc.
    + intros f Hf. by apply elem_of_nil in Hf.
  - apply NoDup_cons in Hnd as [Hc Hnd].
    destruct (Hl c) as [conns Hconns]; [left|].
    destruct (clean_record_layer_registered s c conns Hs Hconns)
      as [Hrun Hwf].
    assert (∀ c', c' ∈ l →
              record_layers (torn_down c s) !! c' = record_layers s !! c')
      as Hother.
    { intros c' Hc'. simpl. rewrite lookup_delete_ne; [done|]. by intros <-. }
    destruct (IH (torn_down c s) Hnd Hwf) as (s' & t & Hloop & Hcalls & Hno).
    { intros c' Hc'. rewrite Hother by done. apply Hl. by right. }
    exists s', ((FrontClose <$> (map_to_list conns).*2)
                ++ RecordClose c :: BackendClose c :: t).
    split_and!.
    + rewrite for_each_cons, bind_assoc, (bind_returns _ _ _ _ _ _ Hrun).
      by rewrite bind_assoc, bind_emit, bind_emit, Hloop.
    + intros c' conns' Hc' Hconns'.
      rewrite !elem_of_app, !elem_of_cons.
      setoid_rewrite elem_of_app. setoid_rewrite elem_of_cons.
      setoid_rewrite elem_of_cons.
      apply elem_of_cons in Hc' as [->|Hc'].
      * assert (conns' = conns) as -> by congruence. split_and!.
        -- right. by left.
        -- right. right. by left.
        -- intros i f Hi. left. apply list_elem_of_fmap. exists f.
           split; [done|]. apply list_elem_of_fmap. exists (i, f).
           split; [done|]. by apply elem_of_map_to_list.
      * rewrite <- Hother in Hconns' by done.
        destruct (Hcalls c' conns' Hc' Hconns') as (H1 & H2 & H3).
        split_and!; [by do 3 right..|]. intros i f Hi. do 3 right. eauto.
    + intros f. rewrite elem_of_app, !elem_of_cons. intros [H|[H|[H|H]]].
      * by apply list_elem_of_fmap in H as (f' & ? & _).
      * done.
      * done.
      * by apply (Hno f).
Qed.

Lemma shutdown_calls s :
  wf s →
  ∃ t, trace (shutdown s) = t ++ [ServerBackendClose]
    ∧ (∀ c conns, record_layers s !! c = Some conns →
         RecordClose c ∈ t ∧ BackendClose c ∈ t
         ∧ ∀ i f, conns !! i = Some f → FrontClose f ∈ t)
    ∧ (∀ f, FrontReset f ∉ t).
Proof.
  intros Hs.
  destruct (shutdown_loop_calls s (map_to_list (record_layers s)).*1)
    as (s' & t & Hloop & Hcalls & Hno); try done.
  { apply NoDup_fst_map_to_list. }
  { intros c [[c' m] [-> Hm]]%list_elem_of_fmap.
    apply elem_of_map_to_list in Hm. by eexists. }
  exists t. split_and!; [|intros c conns Hc|done].
  - unfold shutdown. by rewrite bind_get, (bind_returns _ _ _ _ _ _ Hloop).
  - apply Hcalls; [|done]. apply list_elem_of_fmap. exists (c, conns).
    split; [done|]. by apply elem_of_map_to_list.
Qed.

(** X14. When the server stops, every record layer that is registered is
    torn down, whether it has virtual connections or not: its own [close]
    and the [close] of its transport are called, and each of its frontends is
    closed; no frontend is reset; the listening backend is closed last, and
    the registry is left empty. *)
Theorem shutdown_closes_every_connection T s :
  reachable T s →
  outcome (shutdown s) = Return tt
  ∧ (∀ c conns, record_layers s !! c = Some conns →
       RecordClose c ∈ trace (shutdown s)
       ∧ BackendClose c ∈ trace (shutdown s)
       ∧ ∀ i f, conns !! i = Some f → FrontClose f ∈ trace (shutdown s))
  ∧ (∀ f, FrontReset f ∉ trace (shutdown s))
  ∧ last (trace (shutdown s)) = Some ServerBackendClose
  ∧ record_layers (final (shutdown s)) = ∅
  ∧ frontends (final (shutdown s)) = ∅.
Proof.
  intros Hs%reachable_wf.
  destruct (shutdown_registry s Hs) as (H1 & H2 & H3 & _).
  destruct (shutdown_calls s Hs) as (t & -> & Hcalls & Hno).
  split_and!; try done.
  - intros c conns Hc. destruct (Hcalls c conns Hc) as (Hr & Hb & Hf).
    split_and!.
    + apply elem_of_app. by left.
    + apply elem_of_app. by left.
    + intros i f Hi. apply elem_of_app. left. eauto.
  - intros f' [H|H]%elem_of_app; [by apply (Hno f')|].
    by apply elem_of_cons in H as [?|H%elem_of_nil].
  - apply last_snoc.
Qed.

Lemma shutdown_closes_every_connection_witness :
  let s := state_two in
  outcome (shutdown s) = Return tt
  ∧ (∀ c conns, record_layers s !! c = Some conns →
       RecordClose c ∈ trace (shutdown s)
       ∧ BackendClose c ∈ trace (shutdown s)
       ∧ ∀ i f, conns !! i = Some f → FrontClose f ∈ trace (shutdown s))
  ∧ (∀ f, FrontReset f ∉ trace (shutdown s))
  ∧ last (trace (shutdown s)) = Some ServerBackendClose
  ∧ record_layers (final (shutdown s)) = ∅
  ∧ frontends (final (shutdown s)) = ∅.
Proof.
  apply (shutdown_closes_every_connection example_tunnel state_two).
  apply reachable_state_two.
Defined.



(** * [main] *)

Lemma option_step_plain acc oa :
  plain_option oa = true →
  ∃ acc', option_step acc oa = inl acc'
    ∧ (is_option "-c" "--config" oa.1 = false
       ∨ is_option "-v" "--verbose" oa.1 = true →
       config_file acc' = config_file acc).
Proof.
  destruct oa as [o a]. unfold plain_option, option_step. simpl.
  intros [Hh Hk]%andb_true_iff. apply negb_true_iff in Hh. rewrite Hh.
  destruct (is_option "-v" "--verbose" o); [by eexists|].
  destruct (is_option "-c" "--config" o).
  { eexists. split; [done|]. by intros [?|?]. }
  destruct (is_option "-l" "--logfile" o); [by eexists|done].
Qed.

Lemma option_step_help acc o a :
  is_option "-h" "--help" o = true → option_step acc (o, a) = inr (Exit 0).
Proof.
  intros Hh. unfold option_step. rewrite Hh.
  destruct (is_option "-v" "--verbose" o) eqn:Hv; [|done].
  unfold is_option in *.
  apply orb_true_iff in Hh as [->%String.eqb_eq| ->%String.eqb_eq]; done.
Qed.

Lemma option_step_known acc oa :
  known_option oa = true →
  option_step acc oa = inr (Exit 0) ∨ ∃ acc', option_step acc oa = inl acc'.
Proof.
  unfold known_option. intros [Hh|Hp]%orb_true_iff.
  - left. destruct oa as [o a]. by apply option_step_help.
  - right. destruct (option_step_plain acc oa Hp) as (acc' & -> & _). eauto.
Qed.

(** X16. The help option ends the option loop of [main] with status 0 as
    soon as the loop reaches it, whatever the options before it were, as
    long as they are among those the loop knows (the only ones
    [getopt.getopt] lets through): the options after it on the command line
    are not looked at, so that a configuration or log file given after it
    counts for nothing. *)
Theorem help_exits_first before o a after acc :
  forallb known_option before = true →
  is_option "-h" "--help" o = true →
  main_options (before ++ (o, a) :: after) acc = inr (Exit 0).
Proof.
  revert acc. induction before as [|oa before IH]; intros acc Hk Hh;
    cbn [app main_options].
  - by rewrite option_step_help.
  - simpl in Hk. apply andb_true_iff in Hk as [Hoa Hk].
    destruct (option_step_known acc oa Hoa) as [->|[acc' ->]]; [done|].
    by apply IH.
Qed.

Lemma help_exits_first_witness :
  main_options ([("-v", ""); ("-c", "a.yaml")]%string
                ++ ("--help", "")%string
                :: [("-l", "server.log"); ("-c", "b.yaml")]%string)
    (Options None None false)
  = inr (Exit 0).
Proof.
  apply (help_exits_first [("-v", ""); ("-c", "a.yaml")]%string "--help" ""
           [("-l", "server.log"); ("-c", "b.yaml")]%string
           (Options None None false)); reflexivity.
Defined.

Lemma main_options_plain opts acc :
  forallb plain_option opts = true →
  forallb (λ oa, negb (is_option "-c" "--config" oa.1)
                 || is_option "-v" "--verbose" oa.1) opts = true →
  ∃ r, main_options opts acc = inl r ∧ config_file r = config_file acc.
Proof.
  revert acc. induction opts as [|oa opts IH]; intros acc Hp Hc;
    cbn [main_options].
  - by exists acc.
  - simpl in Hp, Hc. apply andb_true_iff in Hp as [Hoa Hp].
    apply andb_true_iff in Hc as [Hnc Hc].
    destruct (option_step_plain acc oa Hoa) as (acc' & -> & Hkeep).
    destruct (IH acc' Hp Hc) as (r & -> & Hr). exists r. split; [done|].
    rewrite Hr. apply Hkeep.
    apply orb_true_iff in Hnc as [Hnc|Hv]; [left|by right].
    by apply negb_true_iff.
Qed.

(** X17. The last [-c]/[--config] on the command line gives the configuration
    file: with no help option and only options the loop knows, the file is
    the argument of the configuration option after which no other one
    comes. *)
Theorem last_config_wins before o a after acc :
  forallb plain_option before = true →
  is_option "-c" "--config" o = true →
  forallb plain_option after = true →
  forallb (λ oa, negb (is_option "-c" "--config" oa.1)) after = true →
  ∃ r, main_options (before ++ (o, a) :: after) acc = inl r
    ∧ config_file r = Some a.
Proof.
  revert acc. induction before as [|oa before IH];
    intros acc Hb Ho Ha Hnc; cbn [app main_options].
  - unfold option_step.
    assert (is_option "-v" "--verbose" o = false) as ->.
    { unfold is_option in *.
      apply orb_true_iff in Ho as [->%String.eqb_eq| ->%String.eqb_eq]; done. }
    assert (is_option "-h" "--help" o = false) as ->.
    { unfold is_option in *.
      apply orb_true_iff in Ho as [->%String.eqb_eq| ->%String.eqb_eq]; done. }
    rewrite Ho.
    destruct (main_options_plain after
                (Options (Some a) (log_file acc) (verbose acc)) Ha)
      as (r & -> & Hr).
    { clear -Hnc. induction after as [|oa after IH]; [done|]. simpl in *.
      apply andb_true_iff in Hnc as [-> Hnc]. simpl. by apply IH. }
    by exists r.
  - simpl in Hb. apply andb_true_iff in Hb as [Hoa Hb].
    destruct (option_step_plain acc oa Hoa) as (acc' & -> & _).
    by apply IH.
Qed.

Lemma last_config_wins_witness :
  ∃ r, main_options ([("-c", "a.yaml"); ("-v", "")]%string
                     ++ ("--config", "b.yaml")%string :: [("-l", "-")]%string)
         (Options None None false)
       = inl r
    ∧ config_file r = Some "b.yaml"%string.
Proof.
  apply (last_config_wins [("-c", "a.yaml"); ("-v", "")]%string "--config"
           "b.yaml" [("-l", "-")]%string (Options None None false));
    reflexivity.
Defined.

Lemma first_existing_Some exists_ files f :
  first_existing exists_ files = Some f →
  ∃ before after,
    files = before ++ f :: after ∧ exists_ f = true
    ∧ Forall (λ g, exists_ g = false) before.
Proof.
  induction files as [|g files IH]; [done|]. simpl.
  destruct (exists_ g) eqn:Hg.
  - intros [= ->]. by exists [], files.
  - intros (before & after & -> & Hf & Hb)%IH.
    exists (g :: before), after. split_and!; [done..|]. by constructor.
Qed.

Lemma first_existing_None exists_ files :
  first_existing exists_ files = None
  ↔ Forall (λ g, exists_ g = false) files.
Proof.
  induction files as [|g files IH]; simpl.
  - split; [constructor|done].
  - destruct (exists_ g) eqn:Hg.
    + split; [done|]. intros [Hg' _]%Forall_cons. congruence.
    + rewrite IH. split; [by constructor|by intros [_ ?]%Forall_cons].
Qed.

(** X18. The configuration file: one given on the command line is taken as
    it is, without a look at the file system; without one, the first of the
    candidate files that exists is taken, in the order of the list, and
    [main] ends with status 2 exactly when none of them exists. *)
Theorem config_file_search exists_ possible_files given :
  main_config_file exists_ possible_files (Some given) = inl given
  ∧ (main_config_file exists_ possible_files None = inr (Exit 2)
     ↔ Forall (λ g, exists_ g = false) possible_files)
  ∧ (∀ f, main_config_file exists_ possible_files None = inl f →
       ∃ before after,
         possible_files = before ++ f :: after ∧ exists_ f = true
         ∧ Forall (λ g, exists_ g = false) before).
Proof.
  unfold main_config_file. split_and!; [done| |].
  - rewrite <- first_existing_None.
    destruct (first_existing exists_ possible_files); by split.
  - intros f.
    destruct (first_existing exists_ possible_files) as [g|] eqn:E; [|done].
    intros [= ->]. by apply first_existing_Some.
Qed.

(** * Pending writes *)

(** ** What the handlers of readable connections call *)

Section CallsOnly.
Context (P : event → Prop).

Lemma calls_only_ret {A} (a : A) : calls_only P (ret a).
Proof. intros s. constructor. Qed.

Lemma calls_only_raise {A} e : calls_only P (@raise A e).
Proof. intros s. constructor. Qed.

Lemma calls_only_get : calls_only P get.
Proof. intros s. constructor. Qed.

Lemma calls_only_modify g : calls_only P (modify g).
Proof. intros s. constructor. Qed.

Lemma calls_only_getitem {A} (o : option A) : calls_only P (getitem o).
Proof. destruct o; intros s; constructor. Qed.

Lemma calls_only_emit e : P e → calls_only P (emit e).
Proof. intros He s. by repeat constructor. Qed.

Lemma calls_only_bind {A B} (m : M A) (k : A → M B) :
  calls_only P m → (∀ a, calls_only P (k a)) → calls_only P (bind m k).
Proof.
  intros Hm Hk s. specialize (Hm s). unfold bind, trace in *.
  destruct (m s) as [[[a|e] s1] t1]; [|done].
  specialize (Hk a s1). destruct (k a s1) as [[r s2] t2]. simpl in *.
  by apply Forall_app.
Qed.

Lemma calls_only_for_each {A} (l : list A) (body : A → M unit) :
  (∀ x, calls_only P (body x)) → calls_only P (for_each l body).
Proof.
  intros Hbody. induction l as [|x l IH]; simpl.
  - apply calls_only_ret.
  - apply calls_only_bind; [apply Hbody|]. by intros _.
Qed.

End CallsOnly.

Ltac calls_only_step :=
  first
    [ apply calls_only_ret | apply calls_only_raise | apply calls_only_get
    | apply calls_only_modify | apply calls_only_getitem
    | apply calls_only_emit; exact I ].
Ltac calls_only_bind x :=
  apply calls_only_bind; [try calls_only_step|intros x].

Lemma conns_getitem_calls conn conn_id :
  calls_only no_retry (conns_getitem conn conn_id).
Proof.
  unfold conns_getitem. calls_only_bind s. calls_only_bind conns.
  calls_only_step.
Qed.

Lemma close_frontend_calls f reset : calls_only no_retry (_close_frontend f reset).
Proof.
  unfold _close_frontend. apply calls_only_bind.
  { destruct reset; calls_only_step. }
  intros _. calls_only_bind s. calls_only_bind ci. destruct ci as [i c].
  calls_only_bind u. calls_only_bind s1. calls_only_bind conns.
  calls_only_bind u1. calls_only_step.
Qed.

Lemma clean_record_layer_calls conn :
  calls_only no_retry (_clean_record_layer conn).
Proof.
  unfold _clean_record_layer. calls_only_bind s. calls_only_bind conns.
  apply calls_only_bind.
  { apply calls_only_for_each. intros f. apply close_frontend_calls. }
  intros _. calls_only_bind s1. calls_only_bind u. calls_only_step.
Qed.

Lemma unfinished_add_calls c : calls_only no_retry (unfinished_add c).
Proof. apply calls_only_modify. Qed.

Lemma send_packet_calls T conn conn_id control data sent :
  calls_only no_retry (_send_packet T conn conn_id control data sent).
Proof.
  unfold _send_packet. calls_only_bind u.
  destruct sent; [apply calls_only_ret|apply unfinished_add_calls].
Qed.

Lemma process_syn_calls T conn conn_id a :
  calls_only no_retry (process_syn T conn conn_id a).
Proof.
  unfold process_syn. calls_only_bind s. calls_only_bind conns.
  apply calls_only_bind.
  { destruct (decide _); [|apply calls_only_ret].
    apply calls_only_bind; [apply conns_getitem_calls|].
    intros f. apply close_frontend_calls. }
  intros _. destruct (new_frontend a).
  - calls_only_bind s1. calls_only_bind u. calls_only_bind s2.
    calls_only_bind conns1. calls_only_bind u1. calls_only_bind u2.
    calls_only_step.
  - apply calls_only_bind; [apply calls_only_emit; exact I|]. intros _.
    apply calls_only_bind; [apply send_packet_calls|]. intros _.
    apply calls_only_ret.
Qed.

Lemma process_packet_calls T conn packet a :
  calls_only no_retry (_process_packet T conn packet a).
Proof.
  unfold _process_packet. destruct (unpack_packet T packet) as [[control i] p].
  calls_only_bind s. calls_only_bind conns.
  destruct (has_flag control (rst T)).
  { apply calls_only_bind; [apply conns_getitem_calls|].
    intros f. apply close_frontend_calls. }
  apply calls_only_bind.
  { destruct (has_flag control (syn T));
      [apply process_syn_calls|apply calls_only_ret]. }
  intros [|]; [|apply calls_only_ret].
  apply calls_only_bind.
  - destruct (has_flag control (dat T)); [|apply calls_only_ret].
    apply calls_only_bind; [apply conns_getitem_calls|]. intros f.
    apply calls_only_bind; [apply calls_only_emit; exact I|]. intros _.
    destruct (front_sent a); [apply calls_only_ret|].
    apply calls_only_bind; [apply conns_getitem_calls|]. intros f'.
    apply unfinished_add_calls.
  - intros _. destruct (has_flag control (fin T)); [|apply calls_only_ret].
    apply calls_only_bind; [apply conns_getitem_calls|].
    intros f. apply close_frontend_calls.
Qed.

Lemma process_record_layer_calls T conn r :
  calls_only no_retry (_process_record_layer T conn r).
Proof.
  destruct r as [e| |packets]; simpl.
  - apply calls_only_bind; [apply clean_record_layer_calls|]. intros _.
    calls_only_bind u. apply calls_only_emit. exact I.
  - apply calls_only_bind; [apply clean_record_layer_calls|]. intros _.
    calls_only_bind u. calls_only_bind u1. apply calls_only_emit. exact I.
  - apply calls_only_for_each. intros p. apply process_packet_calls.
Qed.

Lemma process_frontend_calls T f r sent :
  calls_only no_retry (_process_frontend T f r sent).
Proof.
  unfold _process_frontend. apply calls_only_bind.
  - destruct r; try apply calls_only_ret.
    calls_only_bind s. calls_only_bind ci. apply calls_only_bind.
    { destruct (is_ascii str); calls_only_step. }
    intros _. apply calls_only_bind; [apply calls_only_emit; exact I|].
    intros _. calls_only_step.
  - intros cd. destruct (recv_control T cd.1 cd.2) as [control data].
    destruct (negb (control =? 0)); [|apply calls_only_ret].
    calls_only_bind s. calls_only_bind ci. destruct ci as [conn_id conn].
    apply calls_only_bind; [apply send_packet_calls|]. intros _.
    destruct (has_flag control (rst T)); [apply close_frontend_calls|].
    destruct (has_flag control (fin T)); [apply close_frontend_calls|].
    apply calls_only_ret.
Qed.

Lemma process_readable_calls T x : calls_only no_retry (process_readable T x).
Proof.
  destruct x as [|conn r|f r sent]; simpl.
  - unfold _process_backend. calls_only_bind s. calls_only_bind u.
    calls_only_bind u1. apply calls_only_emit. exact I.
  - apply process_record_layer_calls.
  - apply process_frontend_calls.
Qed.

Lemma retries_no_retry x t : Forall no_retry t → retries x t = 0%nat.
Proof.
  unfold retries. induction 1 as [|e t He _ IH]; [done|]. simpl.
  destruct x, e; simpl in *; done.
Qed.

Lemma retries_app x t1 t2 : retries x (t1 ++ t2) = (retries x t1 + retries x t2)%nat.
Proof. unfold retries. by rewrite List.filter_app, length_app. Qed.

Lemma is_retry_retry x y : is_retry x (retry y) = bool_decide (x = y).
Proof.
  destruct x as [c|f], y as [c'|f']; simpl; try done.
  - destruct (Nat.eqb_spec c c') as [->|Hne].
    + by rewrite bool_decide_true.
    + rewrite bool_decide_false; [done|]. by intros [= ?].
  - destruct (Nat.eqb_spec f f') as [->|Hne].
    + by rewrite bool_decide_true.
    + rewrite bool_decide_false; [done|]. by intros [= ?].
Qed.

Lemma retries_retry x (l : list (nat + nat)) :
  NoDup l → retries x (retry <$> l) = if decide (x ∈ l) then 1%nat else 0%nat.
Proof.
  unfold retries. induction 1 as [|y l Hy Hnd IH].
  - destruct (decide (x ∈ [])) as [H|]; [by apply elem_of_nil in H|done].
  - rewrite fmap_cons. cbn [List.filter]. rewrite is_retry_retry.
    destruct (decide (x = y)) as [->|Hne].
    + rewrite bool_decide_true by done. cbn [length]. rewrite IH.
      destruct (decide (y ∈ l)); [done|].
      destruct (decide (y ∈ y :: l)) as [|Hn]; [done|]. destruct Hn. left.
    + rewrite bool_decide_false by done. rewrite IH.
      destruct (decide (x ∈ l)) as [Hin|Hnin];
        destruct (decide (x ∈ y :: l)) as [Hin'|Hnin']; try done.
      * destruct Hnin'. by right.
      * by apply elem_of_cons in Hin' as [?|?].
Qed.

(** ** Handlers of readable connections take nothing out of the set *)

Section KeepsPending.
Variable U : gset (nat + nat).
Let keeps (s : server) : Prop := U ⊆ unfinished s.

Lemma close_frontend_keeps f reset : preserves keeps (_close_frontend f reset).
Proof. intros s Hs. unfold keeps. by rewrite close_frontend_unfinished. Qed.

Lemma clean_record_layer_keeps conn : preserves keeps (_clean_record_layer conn).
Proof.
  unfold _clean_record_layer.
  apply preserves_bind; [apply preserves_get|]. intros s.
  apply preserves_bind; [apply preserves_getitem|]. intros conns.
  apply preserves_bind.
  { apply preserves_for_each. intros f. apply close_frontend_keeps. }
  intros _. apply preserves_bind; [apply preserves_get|]. intros s1.
  apply preserves_bind; [apply preserves_getitem|]. intros _.
  by apply preserves_modify.
Qed.

Lemma unfinished_add_keeps c : preserves keeps (unfinished_add c).
Proof.
  apply preserves_modify. intros s Hs. unfold keeps in *. simpl.
  by apply union_subseteq_r'.
Qed.

Lemma send_packet_keeps T conn conn_id control data sent :
  preserves keeps (_send_packet T conn conn_id control data sent).
Proof.
  unfold _send_packet. apply preserves_bind; [apply preserves_emit|].
  intros _. destruct sent; [apply preserves_ret|apply unfinished_add_keeps].
Qed.

Lemma process_syn_keeps T conn conn_id a :
  preserves keeps (process_syn T conn conn_id a).
Proof.
  unfold process_syn.
  apply preserves_bind; [apply preserves_get|]. intros s.
  apply preserves_bind; [apply preserves_getitem|]. intros conns.
  apply preserves_bind.
  { destruct (decide _); [|apply preserves_ret].
    apply preserves_bind; [apply conns_getitem_preserves|].
    intros f. apply close_frontend_keeps. }
  intros _. destruct (new_frontend a).
  - apply preserves_bind; [apply preserves_get|]. intros s1.
    apply preserves_bind; [by apply preserves_modify|]. intros _.
    apply preserves_bind; [apply preserves_get|]. intros s2.
    apply preserves_bind; [apply preserves_getitem|]. intros conns1.
    apply preserves_bind; [by apply preserves_modify|]. intros _.
    apply preserves_bind; [by apply preserves_modify|]. intros _.
    apply preserves_ret.
  - apply preserves_bind; [apply preserves_log|]. intros _.
    apply preserves_bind; [apply send_packet_keeps|]. intros _.
    apply preserves_ret.
Qed.

Lemma process_packet_keeps T conn packet a :
  preserves keeps (_process_packet T conn packet a).
Proof.
  unfold _process_packet. destruct (unpack_packet T packet) as [[control i] p].
  apply preserves_bind; [apply preserves_get|]. intros s1.
  apply preserves_bind; [apply preserves_getitem|]. intros _.
  destruct (has_flag control (rst T)).
  { apply preserves_bind; [apply conns_getitem_preserves|].
    intros f. apply close_frontend_keeps. }
  apply preserves_bind.
  { destruct (has_flag control (syn T));
      [apply process_syn_keeps|apply preserves_ret]. }
  intros [|]; [|apply preserves_ret].
  apply preserves_bind.
  - destruct (has_flag control (dat T)); [|apply preserves_ret].
    apply preserves_bind; [apply conns_getitem_preserves|]. intros f.
    apply preserves_bind; [apply preserves_emit|]. intros _.
    destruct (front_sent a); [apply preserves_ret|].
    apply preserves_bind; [apply conns_getitem_preserves|]. intros f'.
    apply unfinished_add_keeps.
  - intros _. destruct (has_flag control (fin T)); [|apply preserves_ret].
    apply preserves_bind; [apply conns_getitem_preserves|].
    intros f. apply close_frontend_keeps.
Qed.

Lemma process_readable_keeps T x : preserves keeps (process_readable T x).
Proof.
  destruct x as [|conn r|f r sent]; simpl.
  - unfold _process_backend.
    apply preserves_bind; [apply preserves_get|]. intros s.
    apply preserves_bind; [by apply preserves_modify|]. intros _.
    apply preserves_bind; [by apply preserves_modify|]. intros _.
    apply preserves_log.
  - destruct r as [e| |packets]; simpl.
    + apply preserves_bind; [apply clean_record_layer_keeps|]. intros _.
      apply preserves_bind; [apply preserves_emit|]. intros _.
      apply preserves_log.
    + apply preserves_bind; [apply clean_record_layer_keeps|]. intros _.
      apply preserves_bind; [apply preserves_emit|]. intros _.
      apply preserves_bind; [apply preserves_emit|]. intros _.
      apply preserves_log.
    + apply preserves_for_each. intros p. apply process_packet_keeps.
  - unfold _process_frontend. apply preserves_bind.
    + destruct r as [str| |data]; try apply preserves_ret.
      apply preserves_bind; [apply preserves_get|]. intros s.
      apply preserves_bind; [apply preserves_getitem|]. intros ci.
      apply preserves_bind.
      { destruct (is_ascii str); [apply preserves_ret|apply preserves_raise]. }
      intros _. apply preserves_bind; [apply preserves_log|]. intros _.
      apply preserves_ret.
    + intros cd. destruct (recv_control T cd.1 cd.2) as [control data].
      destruct (negb (control =? 0)); [|apply preserves_ret].
      apply preserves_bind; [apply preserves_get|]. intros s.
      apply preserves_bind; [apply preserves_getitem|]. intros [conn_id conn].
      apply preserves_bind; [apply send_packet_keeps|]. intros _.
      destruct (has_flag control (rst T)); [apply close_frontend_keeps|].
      destruct (has_flag control (fin T)); [apply close_frontend_keeps|].
      apply preserves_ret.
Qed.

End KeepsPending.

(** ** The loop over the writable connections *)

Lemma finished_cons x b w :
  finished ((x, b) :: w) = if b then {[x]} ∪ finished w else finished w.
Proof.
  unfold finished. rewrite filter_cons. simpl.
  destruct b; [by rewrite decide_True by done|by rewrite decide_False by done].
Qed.

Lemma elem_of_finished x w : x ∈ finished w ↔ (x, true) ∈ w.
Proof.
  unfold finished. rewrite elem_of_list_to_set, list_elem_of_fmap. split.
  - intros ([y b] & -> & [Hb Hin]%list_elem_of_filter). simpl in *. by subst.
  - intros Hin. exists (x, true). split; [done|].
    by apply list_elem_of_filter.
Qed.

Lemma set_unfinished_id s : set_unfinished (unfinished s) s = s.
Proof. by destruct s. Qed.

Lemma process_sending_eq x b s :
  x ∈ unfinished s →
  _process_sending x b s
  = (Return tt, if b then set_unfinished (unfinished s ∖ {[x]}) s else s,
     [retry x]).
Proof.
  intros Hx. unfold _process_sending.
  assert (bind (emit (retry x))
            (λ _, if b then unfinished_remove x else ret tt) s
          = (Return tt,
             if b then set_unfinished (unfinished s ∖ {[x]}) s else s,
             [retry x])) as H.
  { rewrite bind_emit. destruct b; [|done].
    unfold unfinished_remove. rewrite bind_get.
    by rewrite decide_True by done. }
  by destruct x.
Qed.

(** [for conn in w: self._process_sending(conn)], when the connections of
    [w] are pending and none comes twice. *)
Lemma process_writable_eq (w : list ((nat + nat) * bool)) s :
  NoDup w.*1 → (∀ x, x ∈ w.*1 → x ∈ unfinished s) →
  for_each w (λ c, _process_sending c.1 c.2) s
  = (Return tt, set_unfinished (unfinished s ∖ finished w) s,
     retry <$> w.*1).
Proof.
  revert s. induction w as [|[x b] w IH]; intros s Hnd Hin.
  - rewrite for_each_nil. unfold finished. simpl.
    by rewrite difference_empty_L, set_unfinished_id.
  - rewrite fmap_cons in Hnd. apply NoDup_cons in Hnd as [Hx Hnd].
    rewrite for_each_cons. cbn [fst snd].
    rewrite (bind_returns _ _ _ _ _ _ (process_sending_eq x b s
               (Hin x ltac:(rewrite fmap_cons; left)))).
    rewrite IH; [|done|].
    + rewrite finished_cons, !fmap_cons. unfold prepend. cbn [fst snd app].
      f_equal. f_equal. destruct b; [|done]. unfold set_unfinished. simpl.
      f_equal. apply set_eq. intros z.
      rewrite !elem_of_difference, elem_of_union, elem_of_singleton.
      tauto.
    + intros z Hz.
      assert (z ∈ unfinished s) as Hzs.
      { apply Hin. rewrite fmap_cons. by right. }
      destruct b; [|done]. simpl. apply elem_of_difference. split; [done|].
      intros ->%elem_of_singleton. done.
Qed.

(** The connections that [select] gave as writable are still pending when
    their turn comes, and [_process] retries each of them once. *)
Lemma process_selected_eq T r w p :
  select_writable p w →
  outcome (for_each r (process_readable T) p) = Return tt →
  let p1 := final (for_each r (process_readable T) p) in
  _process T (Selected r w) p
  = (Return tt, set_unfinished (unfinished p1 ∖ finished w) p1,
     trace (for_each r (process_readable T) p) ++ (retry <$> w.*1)).
Proof.
  intros [Hnd Hin] Hout p1.
  assert (unfinished p ⊆ unfinished p1) as Hkeep.
  { apply (preserves_for_each (λ s', unfinished p ⊆ unfinished s'));
      [|done].
    intros x. apply process_readable_keeps. }
  subst p1. unfold _process.
  destruct (for_each r (process_readable T) p) as [[[[]|e] p1] t1] eqn:Hr;
    [|done].
  rewrite (bind_returns _ _ _ _ _ _ Hr). unfold final, trace in *. simpl in *.
  rewrite process_writable_eq; [done|done|].
  intros x Hx. apply Hkeep. by apply elem_of_elements, Hin.
Qed.

Lemma no_retry_is_retry y e : no_retry e → is_retry y e = false.
Proof. by destruct y, e. Qed.

Lemma retries_none y t :
  Forall (λ e, is_retry y e = false) t → retries y t = 0%nat.
Proof.
  unfold retries. induction 1 as [|e t He _ IH]; [done|].
  simpl. by rewrite He.
Qed.

Lemma calls_only_impl {A} (P Q : event → Prop) (m : M A) :
  (∀ e, P e → Q e) → calls_only P m → calls_only Q m.
Proof. intros HPQ Hm s. eapply Forall_impl; [apply Hm|done]. Qed.

(** A turn of [_process] does not retry a connection that [select] did not
    give as writable. *)
Lemma process_calls T r w y :
  y ∉ w.*1 →
  calls_only (λ e, is_retry y e = false) (_process T (Selected r w)).
Proof.
  intros Hy. unfold _process. apply calls_only_bind.
  { apply calls_only_for_each. intros x.
    eapply calls_only_impl; [|apply process_readable_calls].
    intros e. apply no_retry_is_retry. }
  intros _. induction w as [|[x b] w IH]; [apply calls_only_ret|].
  rewrite fmap_cons in Hy. apply not_elem_of_cons in Hy as [Hne Hy].
  cbn [for_each]. apply calls_only_bind; [|intros _; by apply IH].
  unfold _process_sending. cbn [fst snd]. apply calls_only_bind.
  - assert (is_retry y (retry x) = false) as H.
    { rewrite is_retry_retry. by apply bool_decide_false. }
    destruct x; by apply calls_only_emit.
  - intros _. destruct b; [|apply calls_only_ret].
    unfold unfinished_remove. apply calls_only_bind; [apply calls_only_get|].
    intros s. destruct (decide _);
      [apply calls_only_modify|apply calls_only_raise].
Qed.

(** ** Sends that do not complete *)

Lemma final_bind_returns {A B} (m : M A) (k : A → M B) s a s1 t1 :
  m s = (Return a, s1, t1) → final (bind m k s) = final (k a s1).
Proof. intros H. by rewrite (bind_returns _ _ _ _ _ _ H), final_prepend. Qed.

(** The FIN part of [_process_packet] leaves the pending-write set as it
    is. *)
Lemma fin_part_unfinished T control conn conn_id s :
  unfinished
    (final ((if has_flag control (fin T)
             then f <- conns_getitem conn conn_id ;; _close_frontend f false
             else ret tt) s))
  = unfinished s.
Proof.
  assert (preserves (λ s', unfinished s' = unfinished s)
            (if has_flag control (fin T)
             then f <- conns_getitem conn conn_id ;; _close_frontend f false
             else ret tt)) as H; [|by apply H].
  destruct (has_flag control (fin T)); [|apply preserves_ret].
  apply preserves_bind; [apply conns_getitem_preserves|].
  intros f s1 Hs1. by rewrite close_frontend_unfinished.
Qed.

(** SYN+DAT for an Unopened id, when the frontend does not take all of the
    payload. *)
Lemma syn_dat_unopened_unfinished T s conn packet control conn_id payload a
    conns :
  unpack_packet T packet = (control, conn_id, payload) →
  has_flag control (rst T) = false →
  has_flag control (syn T) = true →
  has_flag control (dat T) = true →
  record_layers s !! conn = Some conns →
  conns !! conn_id = None →
  new_frontend a = Available →
  front_sent a = false →
  unfinished (final (_process_packet T conn packet a s))
  = {[inr (allocated s)]} ∪ unfinished s.
Proof.
  intros Hp Hrst Hsyn Hdat Hc Hi Ha Hsent.
  unfold _process_packet. rewrite Hp.
  rewrite bind_get, Hc, bind_getitem_Some, Hrst, Hsyn.
  rewrite (syn_dat_unopened_eq T s conn control conn_id payload a conns
             _ Hc Hi Ha).
  rewrite final_prepend. cbv beta. rewrite fin_part_unfinished.
  by rewrite Hdat, Hsent.
Qed.

Lemma dat_send_incomplete T s conn packet control conn_id payload a conns f :
  wf s →
  unpack_packet T packet = (control, conn_id, payload) →
  has_flag control (rst T) = false →
  has_flag control (dat T) = true →
  record_layers s !! conn = Some conns →
  dat_target T s conns control conn_id a = Some f →
  front_sent a = false →
  unfinished (final (_process_packet T conn packet a s))
  = {[inr f]} ∪ unfinished s.
Proof.
  intros Hs Hp Hrst Hdat Hc Hf Hsent. unfold dat_target in Hf.
  destruct (has_flag control (syn T)) eqn:Hsyn.
  - destruct (new_frontend a) as [|m] eqn:Ha; [|done].
    injection Hf as <-.
    destruct (conns !! conn_id) as [f0|] eqn:Hi.
    + set (s0 := closed f0 conn_id conn conns s).
      assert (record_layers s0 !! conn = Some (delete conn_id conns)) as Hc0.
      { simpl. by rewrite lookup_insert_eq. }
      assert (delete conn_id conns !! conn_id = None) as Hi0
        by apply lookup_delete_eq.
      assert (_process_packet T conn packet a s
              = prepend [FrontClose f0] (_process_packet T conn packet a s0))
        as Hrun.
      { unfold _process_packet. rewrite Hp.
        rewrite !bind_get, Hc, Hc0, !bind_getitem_Some, Hrst, Hsyn.
        apply bind_prepend.
        by rewrite (process_syn_open T conn conn_id a s conns f0 Hs Hc Hi),
          (process_syn_unopened T conn conn_id a s0 _ Hc0 Hi0). }
      rewrite Hrun, final_prepend.
      by rewrite (syn_dat_unopened_unfinished T s0 conn packet control conn_id
                    payload a (delete conn_id conns)).
    + by apply (syn_dat_unopened_unfinished T s conn packet control conn_id
                  payload a conns).
  - unfold _process_packet. rewrite Hp.
    rewrite bind_get, Hc, bind_getitem_Some, Hrst, Hsyn, bind_ret.
    rewrite (final_bind_returns _ _ _ _ _ _
               (dat_flag_eq T control conn conn_id payload a s conns f Hc Hf)).
    rewrite fin_part_unfinished. by rewrite Hdat, Hsent.
Qed.

Lemma incomplete_send_unfinished T s x s' :
  wf s → incomplete_send T s x s' → unfinished s' = {[x]} ∪ unfinished s.
Proof.
  intros Hs [conn conn_id control data
            |conn packet control conn_id payload a conns f
               Hp Hrst Hdat Hc Hf Hsent].
  - by rewrite send_packet_eq.
  - by apply (dat_send_incomplete T s conn packet control conn_id payload a
                conns f).
Qed.

Lemma elem_of_wlist x s : x ∈ wlist s ↔ x ∈ unfinished s.
Proof. unfold wlist. apply elem_of_elements. Qed.

(** C9. A send that does not complete ([conn.send_packet] in
    [_send_packet], or the [send] of a frontend in the DAT part of
    [_process_packet], with SYN in the same packet or without) leaves its
    connection [x] in the pending-write set, and adds nothing else: [x]
    comes once in the list that [_process] gives to [select], and a
    connection that was pending already leaves the set as it was. In a turn
    of [_process] whose readable connections are handled without an error,
    with writable connections [w] that [select] took from that list, each
    connection of [w] is retried once and no other connection is retried;
    the ones whose retry completes are taken out of the set, so that the
    next [select] cannot give them and the next turn does not retry them;
    the ones whose retry does not complete stay pending. *)
Theorem pending_write_once T s x s' p r w y :
  reachable T s →
  incomplete_send T s x s' →
  select_writable p w →
  outcome (for_each r (process_readable T) p) = Return tt →
  let p1 := final (for_each r (process_readable T) p) in
  let t1 := trace (for_each r (process_readable T) p) in
  let p2 := set_unfinished (unfinished p1 ∖ finished w) p1 in
  unfinished s' = {[x]} ∪ unfinished s
  ∧ length (filter (λ z, z = x) (wlist s')) = 1%nat
  ∧ (x ∈ unfinished s → unfinished s' = unfinished s)
  ∧ _process T (Selected r w) p
    = (Return tt, p2, t1 ++ (retry <$> w.*1))
  ∧ retries y (trace (_process T (Selected r w) p))
    = (if decide (y ∈ w.*1) then 1 else 0)%nat
  ∧ (y ∈ finished w →
     y ∈ unfinished p ∧ (y ∉ wlist p2)
     ∧ ∀ r' w', select_writable p2 w' →
         (y ∉ w'.*1)
         ∧ retries y (trace (_process T (Selected r' w') p2)) = 0%nat)
  ∧ (y ∈ unfinished p → y ∉ finished w → y ∈ wlist p2).
Proof.
  intros Hs%reachable_wf Hx Hw Hout p1 t1 p2.
  pose proof (incomplete_send_unfinished T s x s' Hs Hx) as Hadd.
  pose proof (process_selected_eq T r w p Hw Hout) as Hrun.
  cbv zeta in Hrun. fold p1 t1 p2 in Hrun.
  assert (unfinished p ⊆ unfinished p1) as Hkeep.
  { apply (preserves_for_each (λ s', unfinished p ⊆ unfinished s'));
      [|done].
    intros z. apply process_readable_keeps. }
  assert (y ∈ finished w → y ∈ w.*1) as Hfin.
  { intros Hy%elem_of_finished. apply list_elem_of_fmap.
    by exists (y, true). }
  split_and!.
  - done.
  - apply NoDup_filter_eq_length; [apply wlist_NoDup|].
    apply elem_of_wlist. rewrite Hadd.
    by apply elem_of_union_l, elem_of_singleton.
  - intros Hin. rewrite Hadd. apply set_eq. intros z.
    rewrite elem_of_union, elem_of_singleton. split; [|by right].
    by intros [->|?].
  - done.
  - rewrite Hrun. unfold trace. cbn [snd]. rewrite retries_app.
    rewrite (retries_no_retry y t1).
    + apply retries_retry, Hw.
    + apply (calls_only_for_each no_retry). apply process_readable_calls.
  - intros Hy. destruct Hw as [_ Hw]. split_and!.
    + by apply elem_of_wlist, Hw, Hfin.
    + intros Hin%elem_of_wlist. simpl in Hin.
      by apply elem_of_difference in Hin as [_ ?].
    + intros r' w' [_ Hw'].
      assert (y ∉ w'.*1) as Hnin.
      { intros Hin%Hw'%elem_of_wlist. simpl in Hin.
        by apply elem_of_difference in Hin as [_ ?]. }
      split; [done|]. apply retries_none. by apply process_calls.
  - intros Hy Hnfin. apply elem_of_wlist. simpl.
    apply elem_of_difference. split; [by apply Hkeep|done].
Qed.

Lemma pending_write_once_witness :
  let T := example_tunnel in
  let a := PacketAnswers Available false true in
  let s' := final (_process_packet T 0%nat (example_packet 3 2 hi) a
                     state_open) in
  let x : nat + nat := inr 2%nat in
  let y : nat + nat := inr 1%nat in
  let p := state_pending in
  let r := [ReadFrontend 1%nat (RecvBytes hi) false] in
  let w := [(y, true); (inl 0%nat, false)] in
  let p1 := final (for_each r (process_readable T) p) in
  let t1 := trace (for_each r (process_readable T) p) in
  let p2 := set_unfinished (unfinished p1 ∖ finished w) p1 in
  unfinished s' = {[x]} ∪ unfinished state_open
  ∧ length (filter (λ z, z = x) (wlist s')) = 1%nat
  ∧ (x ∈ unfinished state_open → unfinished s' = unfinished state_open)
  ∧ _process T (Selected r w) p
    = (Return tt, p2, t1 ++ (retry <$> w.*1))
  ∧ retries y (trace (_process T (Selected r w) p))
    = (if decide (y ∈ w.*1) then 1 else 0)%nat
  ∧ (y ∈ finished w →
     y ∈ unfinished p ∧ (y ∉ wlist p2)
     ∧ ∀ r' w', select_writable p2 w' →
         (y ∉ w'.*1)
         ∧ retries y (trace (_process T (Selected r' w') p2)) = 0%nat)
  ∧ (y ∈ unfinished p → y ∉ finished w → y ∈ wlist p2).
Proof.
  intros T a s' x y p r w.
  apply (pending_write_once T state_open x s' p r w y).
  - apply reachable_state_open.
  - apply (incomplete_front_send T state_open 0%nat (example_packet 3 2 hi)
             3 2 hi a {[1 := 1%nat]} 2%nat); reflexivity.
  - split; [compute_done|]. apply Forall_forall. compute_done.
  - reflexivity.
Defined.
